(** * GoogleProvider (octodns/provider/googledns.py): a shallow embedding

    The provider reads the record sets of a zone from the remote DNS
    service and turns them into neutral records ([populate]), and turns
    a plan of [Create]/[Delete] changes into write requests ([_apply]).

    Python dictionaries keyed by strings are [gmap string _]; the
    instance attributes [_zones] and [_zone_records] are fields of the
    [provider] state, threaded through a state-and-exception monad.
    Exceptions do not roll the state back, as in Python. *)

From Stdlib Require Import ZArith Ascii String List.
From stdpp Require Import base option list gmap strings fin_maps.

Local Open Scope string_scope.
Local Open Scope Z_scope.
Local Open Scope list_scope.

(** ** Exceptions and results *)

Inductive exn :=
| AttributeError (attr : string)
| KeyError (key : string)
| IndexError
| HttpError (what : string)
| RecordError (what : string).

Inductive result (A : Type) :=
| Ok (a : A)
| Raise (e : exn).
Arguments Ok {A} a.
Arguments Raise {A} e.

Definition is_Ok {A} (r : result A) : bool :=
  match r with Ok _ => true | Raise _ => false end.

Definition rbind {A B} (r : result A) (k : A -> result B) : result B :=
  match r with
  | Ok a => k a
  | Raise e => Raise e
  end.

(** [[f(x) for x in xs]]: the first exception aborts the comprehension. *)
Fixpoint rmap {A B} (f : A -> result B) (xs : list A) : result (list B) :=
  match xs with
  | [] => Ok []
  | x :: xs' =>
      rbind (f x) (fun y => rbind (rmap f xs') (fun ys => Ok (y :: ys)))
  end.

(** ** Python strings *)

Module PyStr.

(** [s.replace(old, new)] for a non-empty [old]: scan from the left,
    replace each occurrence and resume after it.  [skip] counts the
    characters of a matched occurrence that are still to be passed. *)
Fixpoint replace_from (old new : string) (skip : nat) (s : string) : string :=
  match s with
  | EmptyString => EmptyString
  | String c s' =>
      match skip with
      | S k => replace_from old new k s'
      | O =>
          if String.prefix old s
          then new +:+ replace_from old new (Nat.pred (String.length old)) s'
          else String c (replace_from old new 0 s')
      end
  end.

(** [s.replace("", new)] puts [new] before every character and at the end. *)
Fixpoint replace_empty (new : string) (s : string) : string :=
  match s with
  | EmptyString => new
  | String c s' => new +:+ String c (replace_empty new s')
  end.

Definition replace (old new s : string) : string :=
  match old with
  | EmptyString => replace_empty new s
  | String _ _ => replace_from old new 0 s
  end.

(** ['{}'.format(s)] on a string is the string. *)
Definition format (s : string) : string := s.

End PyStr.

(** The two TXT conversions of the provider. *)
Definition txt_escape (s : string) : string := PyStr.replace ";" "\;" s.
Definition txt_unescape (s : string) : string := PyStr.replace "\;" ";" s.

(** ** Data model *)

(** A resource record set as the remote service lists it. *)
Record rrset := {
  rr_name : string;
  rr_type : string;
  rr_ttl : Z;
  rr_rrdatas : list string;
  rr_priority : option Z;
}.

(** One value of a neutral record: a string, or an MX value object. *)
Inductive rvalue :=
| VStr (s : string)
| VMx (preference : Z) (exchange : string).

(** [value] for singleton types, [values] for the others. *)
Inductive payload :=
| Value (value : string)
| Values (values : list rvalue).

(** The [data] dictionary handed to [Record.new]. *)
Record data := {
  d_ttl : Z;
  d_type : string;
  d_payload : payload;
}.

Global Instance rvalue_eq_dec : EqDecision rvalue.
Proof. solve_decision. Defined.
Global Instance payload_eq_dec : EqDecision payload.
Proof. solve_decision. Defined.

(** ** Inbound translators: [_data_for_*] *)

(** [records[0]] *)
Definition first_record (records : list rrset) : result rrset :=
  match records with
  | [] => Raise IndexError
  | r :: _ => Ok r
  end.

(** [r['rrdatas'][0]] *)
Definition rrdatas_0 (r : rrset) : result string :=
  match rr_rrdatas r with
  | [] => Raise IndexError
  | s :: _ => Ok s
  end.

(** [r['priority']] *)
Definition priority_of (r : rrset) : result Z :=
  match rr_priority r with
  | None => Raise (KeyError "priority")
  | Some p => Ok p
  end.

Definition _data_for_multiple (_type : string) (records : list rrset) : result data :=
  rbind (first_record records) (fun r0 =>
  rbind (rmap (fun r => rbind (rrdatas_0 r) (fun s => Ok (VStr s))) records) (fun vs =>
  Ok {| d_ttl := rr_ttl r0; d_type := _type; d_payload := Values vs |})).

Definition _data_for_A := _data_for_multiple.
Definition _data_for_AAAA := _data_for_multiple.
Definition _data_for_SPF := _data_for_multiple.

Definition _data_for_TXT (_type : string) (records : list rrset) : result data :=
  rbind (first_record records) (fun r0 =>
  rbind (rmap (fun r => rbind (rrdatas_0 r) (fun s => Ok (VStr (txt_escape s)))) records) (fun vs =>
  Ok {| d_ttl := rr_ttl r0; d_type := _type; d_payload := Values vs |})).

Definition _data_for_CNAME (_type : string) (records : list rrset) : result data :=
  rbind (first_record records) (fun only =>
  rbind (rrdatas_0 only) (fun s =>
  Ok {| d_ttl := rr_ttl only; d_type := _type; d_payload := Value (PyStr.format s) |})).

Definition _data_for_MX (_type : string) (records : list rrset) : result data :=
  rbind (rmap (fun r => rbind (priority_of r) (fun p =>
                        rbind (rrdatas_0 r) (fun s => Ok (VMx p (PyStr.format s))))) records) (fun vs =>
  rbind (first_record records) (fun r0 =>
  Ok {| d_ttl := rr_ttl r0; d_type := _type; d_payload := Values vs |})).

Definition _data_for_formatted (_type : string) (records : list rrset) : result data :=
  rbind (first_record records) (fun r0 =>
  rbind (rmap (fun r => rbind (rrdatas_0 r) (fun s => Ok (VStr (PyStr.format s)))) records) (fun vs =>
  Ok {| d_ttl := rr_ttl r0; d_type := _type; d_payload := Values vs |})).

Definition _data_for_SRV := _data_for_formatted.
Definition _data_for_NAPTR := _data_for_formatted.
Definition _data_for_NS := _data_for_formatted.

(** [getattr(self, '_data_for_{}'.format(_type))]: the methods the class
    defines; any other name raises [AttributeError]. *)
Definition getattr_data_for (_type : string)
  : result (string -> list rrset -> result data) :=
  if decide (_type = "A") then Ok _data_for_A
  else if decide (_type = "AAAA") then Ok _data_for_AAAA
  else if decide (_type = "SPF") then Ok _data_for_SPF
  else if decide (_type = "TXT") then Ok _data_for_TXT
  else if decide (_type = "CNAME") then Ok _data_for_CNAME
  else if decide (_type = "MX") then Ok _data_for_MX
  else if decide (_type = "SRV") then Ok _data_for_SRV
  else if decide (_type = "NAPTR") then Ok _data_for_NAPTR
  else if decide (_type = "NS") then Ok _data_for_NS
  else Raise (AttributeError ("_data_for_" +:+ _type)).

(** [SUPPORTS] *)
Definition SUPPORTS : gset string :=
  {[ "A"; "AAAA"; "CAA"; "CNAME"; "MX"; "NAPTR"; "NS"; "PTR"; "SPF"; "SRV"; "TXT" ]}.

Definition MIN_TTL : Z := 60.

(** ** Generators

    The [_contents_for_*] methods are generators: fragments are produced
    one at a time, and an exception raised while producing the next one
    surfaces only after the earlier ones were consumed. *)

Inductive gen (A : Type) :=
| GStop
| GYield (a : A) (rest : gen A)
| GRaise (e : exn).
Arguments GStop {A}.
Arguments GYield {A} a rest.
Arguments GRaise {A} e.

(** The items a consumer sees before the generator stops or raises. *)
Fixpoint yielded {A} (g : gen A) : list A :=
  match g with
  | GStop => []
  | GYield a rest => a :: yielded rest
  | GRaise _ => []
  end.

(** Whether the generator runs to completion. *)
Fixpoint exhausts {A} (g : gen A) : bool :=
  match g with
  | GStop => true
  | GYield _ rest => exhausts rest
  | GRaise _ => false
  end.

(** [for x in xs: yield f(x)] *)
Fixpoint gen_for {A B} (f : A -> result B) (xs : list A) : gen B :=
  match xs with
  | [] => GStop
  | x :: xs' =>
      match f x with
      | Ok b => GYield b (gen_for f xs')
      | Raise e => GRaise e
      end
  end.

(** ** Neutral records and outbound translators: [_contents_for_*] *)

(** Values stored in a content fragment (a Python dict). *)
Inductive pyval :=
| PStr (s : string)
| PInt (n : Z)
| PList (l : list rvalue).

Abbreviation fragment := (gmap string pyval).

(** The attributes of a record object the provider reads when it
    applies a change. *)
Record NeutralRecord (Zone : Type) := {
  rec_zone : Zone;
  rec_fqdn : string;
  rec_type : string;
  rec_ttl : Z;
  rec_payload : payload;
}.
Arguments rec_zone {Zone} _.
Arguments rec_fqdn {Zone} _.
Arguments rec_type {Zone} _.
Arguments rec_ttl {Zone} _.
Arguments rec_payload {Zone} _.

Section Outbound.
Context {Zone : Type}.
Implicit Types record : NeutralRecord Zone.

(** [record.values] *)
Definition get_values record : result (list rvalue) :=
  match rec_payload record with
  | Values vs => Ok vs
  | Value _ => Raise (AttributeError "values")
  end.

(** [record.value] *)
Definition get_value record : result string :=
  match rec_payload record with
  | Value v => Ok v
  | Values _ => Raise (AttributeError "value")
  end.

Definition gen_values record (f : rvalue -> result fragment) : gen fragment :=
  match get_values record with
  | Ok vs => gen_for f vs
  | Raise e => GRaise e
  end.

Definition _contents_for_multiple record : gen fragment :=
  gen_values record (fun value => Ok {[ "rrdatas" := PList [value] ]}).

Definition _contents_for_A := _contents_for_multiple.
Definition _contents_for_AAAA := _contents_for_multiple.
Definition _contents_for_NS := _contents_for_multiple.
Definition _contents_for_SPF := _contents_for_multiple.

Definition _contents_for_TXT record : gen fragment :=
  gen_values record (fun value =>
    match value with
    | VStr s => Ok {[ "content" := PStr (txt_unescape s) ]}
    | VMx _ _ => Raise (AttributeError "replace")
    end).

Definition _contents_for_CNAME record : gen fragment :=
  match get_value record with
  | Ok v => GYield {[ "content" := PStr v ]} GStop
  | Raise e => GRaise e
  end.

Definition _contents_for_MX record : gen fragment :=
  gen_values record (fun value =>
    match value with
    | VMx preference exchange =>
        Ok (<[ "priority" := PInt preference ]> {[ "content" := PStr exchange ]})
    | VStr _ => Raise (AttributeError "preference")
    end).

(** [getattr(self, '_contents_for_{}'.format(_type))] *)
Definition getattr_contents_for (_type : string)
  : result (NeutralRecord Zone -> gen fragment) :=
  if decide (_type = "A") then Ok _contents_for_A
  else if decide (_type = "AAAA") then Ok _contents_for_AAAA
  else if decide (_type = "NS") then Ok _contents_for_NS
  else if decide (_type = "SPF") then Ok _contents_for_SPF
  else if decide (_type = "TXT") then Ok _contents_for_TXT
  else if decide (_type = "CNAME") then Ok _contents_for_CNAME
  else if decide (_type = "MX") then Ok _contents_for_MX
  else Raise (AttributeError ("_contents_for_" +:+ _type)).

(** [content.update({"name": .., "type": .., "ttl": ..})] *)
Definition content_update record (content : fragment) : fragment :=
  <[ "ttl" := PInt (rec_ttl record) ]>
    (<[ "type" := PStr (rec_type record) ]>
       (<[ "name" := PStr (rec_fqdn record) ]> content)).

End Outbound.

(** ** The remote service *)

(** A value of the [zones] mapping: an identifier, or [False]. *)
Inductive zone_id :=
| ZFalse
| ZId (id : string).

(** Python truthiness: [False] and the empty string are falsy. *)
Definition truthy (z : zone_id) : bool :=
  match z with
  | ZFalse => false
  | ZId id => negb (String.eqb id "")
  end.

Record managed_zone := {
  mz_dnsName : string;
  mz_id : string;
}.

(** The body of a [changes().create] request: the [kind] and whichever
    of the [additions] and [deletions] keys is present. *)
Record change_body := {
  kind : string;
  additions : option (list fragment);
  deletions : option (list fragment);
}.

(** A paginated listing, as the client sees it: every page is one
    request; a page either fails, is the last one, or carries a
    continuation token for the next request. *)
Inductive listing (A : Type) :=
| PageFails (e : exn)
| LastPage (items : list A)
| NextPage (items : list A) (next : listing A).
Arguments PageFails {A} e.
Arguments LastPage {A} items.
Arguments NextPage {A} items next.

(** [self.client], over a state [W] of the remote service. *)
Class DnsClient (W : Type) := {
  managedZones_list : W -> listing managed_zone;
  resourceRecordSets_list : W -> zone_id -> listing rrset;
  changes_create : W -> zone_id -> change_body -> result W;
}.

(** The requests the provider executes. *)
Inductive request :=
| ManagedZonesList
| ResourceRecordSetsList (managedZone : zone_id)
| ChangesCreate (managedZone : zone_id) (body : change_body).

Definition is_rrsets_list (r : request) : bool :=
  match r with ResourceRecordSetsList _ => true | _ => false end.
Definition is_zones_list (r : request) : bool :=
  match r with ManagedZonesList => true | _ => false end.
Definition is_change (r : request) : bool :=
  match r with ChangesCreate _ _ => true | _ => false end.

(** ** State and exceptions *)

Definition M (S A : Type) : Type := S -> result A * S.

Definition ret {S A} (a : A) : M S A := fun s => (Ok a, s).
Definition raise {S A} (e : exn) : M S A := fun s => (Raise e, s).
Definition bind {S A B} (m : M S A) (k : A -> M S B) : M S B :=
  fun s =>
    match m s with
    | (Ok a, s') => k a s'
    | (Raise e, s') => (Raise e, s')
    end.
Definition lift {S A} (r : result A) : M S A := fun s => (r, s).
Definition get {S} : M S S := fun s => (Ok s, s).
Definition put {S} (s : S) : M S unit := fun _ => (Ok tt, s).

Notation "'let*' x := m 'in' k" := (bind m (fun x => k))
  (at level 10, x name, m at level 100, k at level 200).
Notation "m ;;; k" := (bind m (fun _ => k))
  (at level 100, right associativity).

(** [for x in xs: body(x)] *)
Fixpoint for_each {S A} (body : A -> M S unit) (xs : list A) : M S unit :=
  match xs with
  | [] => ret tt
  | x :: xs' => body x ;;; for_each body xs'
  end.

(** [for x in generator: body(x)] *)
Fixpoint for_gen {S A} (body : A -> M S unit) (g : gen A) : M S unit :=
  match g with
  | GStop => ret tt
  | GYield a rest => body a ;;; for_gen body rest
  | GRaise e => raise e
  end.

(** ** The provider *)

(** What [_zone_records] holds for a zone: the list built by
    [zone_records], or the empty dict [_apply] stores for a new zone. *)
Inductive snapshot :=
| SnapDict
| SnapList (records : list rrset).

(** The instance: the client, the two caches, and (as a ghost field)
    the requests executed so far, oldest first. *)
Record provider (W : Type) := {
  client : W;
  _zones : option (gmap string zone_id);
  _zone_records : gmap string snapshot;
  sent : list request;
}.
Arguments client {W} _.
Arguments _zones {W} _.
Arguments _zone_records {W} _.
Arguments sent {W} _.

(** The planner's changes, by class. *)
Inductive change (Zone : Type) :=
| Create (new : NeutralRecord Zone)
| Delete (existing : NeutralRecord Zone)
| Update (existing new : NeutralRecord Zone).
Arguments Create {Zone} new.
Arguments Delete {Zone} existing.
Arguments Update {Zone} existing new.

Record plan (Zone : Type) := {
  desired : Zone;
  changes : list (change Zone);
}.
Arguments desired {Zone} _.
Arguments changes {Zone} _.

(** The record model the provider works for: zones and [Record.new]. *)
Class RecordModel (Zone Rec : Type) := {
  zone_name : Zone -> string;
  hostname_from_fqdn : Zone -> string -> string;
  record_new : Zone -> string -> data -> bool -> result Rec;
  add_record : Zone -> Rec -> result Zone;
}.

Section Provider.
Context {W : Type} `{DnsClient W}.

(** Attribute updates on the instance. *)
Definition add_sent (rs : list request) (st : provider W) : provider W :=
  {| client := client st; _zones := _zones st;
     _zone_records := _zone_records st; sent := (sent st ++ rs)%list |}.

Definition with_zones (zs : gmap string zone_id) (st : provider W) : provider W :=
  {| client := client st; _zones := Some zs;
     _zone_records := _zone_records st; sent := sent st |}.

Definition with_zone_records (zr : gmap string snapshot) (st : provider W)
  : provider W :=
  {| client := client st; _zones := _zones st;
     _zone_records := zr; sent := sent st |}.

Definition with_client (w : W) (st : provider W) : provider W :=
  {| client := w; _zones := _zones st;
     _zone_records := _zone_records st; sent := sent st |}.

Definition log (r : request) : M (provider W) unit :=
  fun st => (Ok tt, add_sent [r] st).

Definition set_zones (zs : gmap string zone_id) : M (provider W) unit :=
  fun st => (Ok tt, with_zones zs st).

Definition set_zone_records (zr : gmap string snapshot) : M (provider W) unit :=
  fun st => (Ok tt, with_zone_records zr st).

Definition set_client (w : W) : M (provider W) unit :=
  fun st => (Ok tt, with_client w st).

(** [while request is not None: response = request.execute(); ...;
    request = list_next(request, response)], with [step] the body run
    on the items of each response. *)
Fixpoint while_request {A B} (req : request) (step : B -> A -> B)
    (acc : B) (pages : listing A) : M (provider W) B :=
  match pages with
  | PageFails e => log req ;;; raise e
  | LastPage items => log req ;;; ret (fold_left step items acc)
  | NextPage items next =>
      log req ;;; while_request req step (fold_left step items acc) next
  end.

(** The [zones] property. *)
Definition zones : M (provider W) (gmap string zone_id) :=
  let* st := get in
  match _zones st with
  | Some zs => ret zs
  | None =>
      let* zs := while_request ManagedZonesList
                   (fun (zs : gmap string zone_id) mz =>
                      <[ PyStr.format (mz_dnsName mz) := ZId (mz_id mz) ]> zs)
                   ∅ (managedZones_list (client st)) in
      set_zones zs ;;;
      ret zs
  end.

(** [self.zones.get(name, False)] *)
Definition zones_get (name : string) : M (provider W) zone_id :=
  let* zs := zones in
  ret (default ZFalse (zs !! name)).

(** [self.zones[name]] *)
Definition zones_getitem (name : string) : M (provider W) zone_id :=
  let* zs := zones in
  match zs !! name with
  | Some z => ret z
  | None => raise (KeyError name)
  end.

(** The part of [zone_records] after the guard: list the record sets
    of [zone_id], store them under [name] and return them. *)
Definition fetch_zone_records (name : string) : M (provider W) (list rrset) :=
  let* zone_id := zones_get name in
  let* st := get in
  let* records := while_request (ResourceRecordSetsList zone_id)
                    (fun records resource_record_set =>
                       (records ++ [resource_record_set])%list)
                    [] (resourceRecordSets_list (client st) zone_id) in
  let* st := get in
  set_zone_records (<[ name := SnapList records ]> (_zone_records st)) ;;;
  ret records.

(** [zone_records(zone)], on [zone.name]. *)
Definition zone_records_named (name : string) : M (provider W) (list rrset) :=
  let* st := get in
  match _zone_records st !! name with
  | None =>
      let* zone_id := zones_get name in
      if truthy zone_id then fetch_zone_records name else ret []
  | Some _ => fetch_zone_records name
  end.

(** [request = self.client.changes().create(...); request.execute()] *)
Definition changes_create_execute (zone_id : zone_id) (body : change_body)
  : M (provider W) unit :=
  log (ChangesCreate zone_id body) ;;;
  let* st := get in
  let* w := lift (changes_create (client st) zone_id body) in
  set_client w.

Section Changes.
Context {Zone Rec : Type} `{RecordModel Zone Rec}.

Definition zone_records (zone : Zone) : M (provider W) (list rrset) :=
  zone_records_named (zone_name zone).

Definition _apply_Create (new : NeutralRecord Zone) : M (provider W) unit :=
  let* zone_id := zones_getitem (zone_name (rec_zone new)) in
  let* contents_for := lift (getattr_contents_for (rec_type new)) in
  for_gen (fun content =>
             let content := content_update new content in
             let change_body := {| kind := "dns#change";
                                   additions := Some [content];
                                   deletions := None |} in
             changes_create_execute zone_id change_body)
          (contents_for new).

Definition _apply_Delete (existing : NeutralRecord Zone) : M (provider W) unit :=
  let* zone_id := zones_getitem (zone_name (rec_zone existing)) in
  let* records := zone_records (rec_zone existing) in
  for_each (fun record : rrset =>
              let* contents_for := lift (getattr_contents_for (rec_type existing)) in
              for_gen (fun content =>
                         let content := content_update existing content in
                         let change_body := {| kind := "dns#change";
                                               additions := None;
                                               deletions := Some [content] |} in
                         changes_create_execute zone_id change_body)
                      (contents_for existing))
           records.

(** [getattr(self, '_apply_{}'.format(class_name))(change)] *)
Definition apply_change (c : change Zone) : M (provider W) unit :=
  match c with
  | Create new => _apply_Create new
  | Delete existing => _apply_Delete existing
  | Update _ _ => raise (AttributeError "_apply_Update")
  end.

Definition _apply (p : plan Zone) : M (provider W) unit :=
  let name := zone_name (desired p) in
  let* zs := zones in
  (match zs !! name with
   | None =>
       let* zone_id := zones_get name in
       let* zs := zones in
       set_zones (<[ name := zone_id ]> zs) ;;;
       let* st := get in
       set_zone_records (<[ name := SnapDict ]> (_zone_records st))
   | Some _ => ret tt
   end) ;;;
  for_each apply_change (changes p) ;;;
  (* clear the cache *)
  let* st := get in
  set_zone_records (delete name (_zone_records st)).

(** *** [populate] *)

(** [d[k] = f(d.get(k, dflt))] on a dictionary kept in insertion order;
    the loops over [items()] below follow that order.  (The order of a
    Python 2 dict is arbitrary; no property proved here depends on it.) *)
Fixpoint dict_update {V} (k : string) (f : V -> V) (dflt : V)
    (d : list (string * V)) : list (string * V) :=
  match d with
  | [] => [(k, f dflt)]
  | (k', v) :: d' =>
      if decide (k' = k) then (k', f v) :: d'
      else (k', v) :: dict_update k f dflt d'
  end.

(** The first loop of [populate]: [values[name][type].append(record)]
    for the records of a supported type. *)
Definition group_record (zone : Zone)
    (values : list (string * list (string * list rrset))) (record : rrset)
  : list (string * list (string * list rrset)) :=
  let name := hostname_from_fqdn zone (rr_name record) in
  let _type := rr_type record in
  if decide (_type ∈ SUPPORTS)
  then dict_update name
         (dict_update (rr_type record) (fun l => (l ++ [record])%list) []) [] values
  else values.

(** The body of the second loop, for one [(name, _type, records)]. *)
Definition add_group (lenient : bool) (name _type : string)
    (records : list rrset) : M Zone unit :=
  let* data_for := lift (getattr_data_for _type) in
  let* data := lift (data_for _type records) in
  let* zone := get in
  let* record := lift (record_new zone name data lenient) in
  let* zone := get in
  let* zone' := lift (add_record zone record) in
  put zone'.

(** What [populate] does with the listed [records]. *)
Definition populate_records (lenient : bool) (records : list rrset)
  : M Zone unit :=
  match records with
  | [] => ret tt
  | _ :: _ =>
      let* zone := get in
      let values := fold_left (group_record zone) records [] in
      for_each (fun '(name, types) =>
                  for_each (fun '(_type, records) =>
                              add_group lenient name _type records)
                           types)
               values
  end.

(** [populate(zone, target, lenient)]: the outcome, the zone as
    [populate] leaves it, and the provider state. *)
Definition populate (zone : Zone) (lenient : bool)
  : provider W -> (result unit * Zone) * provider W :=
  fun st =>
    match zone_records zone st with
    | (Ok records, st') => (populate_records lenient records zone, st')
    | (Raise e, st') => ((Raise e, zone), st')
    end.

End Changes.
End Provider.

(** ** Notions used to state the properties *)

(** Escaping as the text convention words it: every [;] becomes [\;],
    every other character is kept. *)
Fixpoint spec_escape (s : string) : string :=
  match s with
  | EmptyString => EmptyString
  | String c s' =>
      if Ascii.eqb c ";" then String "\" (String ";" (spec_escape s'))
      else String c (spec_escape s')
  end.

(** A string is in escaped form when every [;] in it directly follows a
    backslash. *)
Fixpoint escaped_from (after_backslash : bool) (s : string) : bool :=
  match s with
  | EmptyString => true
  | String c s' =>
      if Ascii.eqb c ";" then after_backslash && escaped_from false s'
      else escaped_from (Ascii.eqb c "\") s'
  end.

Definition is_escaped (s : string) : bool := escaped_from false s.

(** Dropping each backslash that directly precedes a [;]. *)
Fixpoint strip (s : string) : string :=
  match s with
  | EmptyString => EmptyString
  | String c s' =>
      match s' with
      | String d _ =>
          if Ascii.eqb c "\" && Ascii.eqb d ";" then strip s'
          else String c (strip s')
      | EmptyString => String c EmptyString
      end
  end.

(** What a paginated loop returns on a listing, and how many requests
    it executes for it. *)
Fixpoint listing_result {A B} (step : B -> A -> B) (acc : B)
    (pages : listing A) : result B :=
  match pages with
  | PageFails e => Raise e
  | LastPage items => Ok (fold_left step items acc)
  | NextPage items next => listing_result step (fold_left step items acc) next
  end.

Fixpoint listing_requests {A} (pages : listing A) : nat :=
  match pages with
  | PageFails _ => 1%nat
  | LastPage _ => 1%nat
  | NextPage _ next => S (listing_requests next)
  end.

(** The first raw string of a wire entry (empty when it has none). *)
Definition head_rrdata (r : rrset) : string :=
  match rr_rrdatas r with s :: _ => s | [] => EmptyString end.

(** The value the inbound translator of type [t] stores for the raw
    string [s]. *)
Definition inbound_value (t s : string) : rvalue :=
  if decide (t = "TXT") then VStr (txt_escape s) else VStr s.

Definition is_VStr (v : rvalue) : bool :=
  match v with VStr _ => true | VMx _ _ => false end.
Definition is_VMx (v : rvalue) : bool :=
  match v with VMx _ _ => true | VStr _ => false end.

(** The payload the record model gives a record of each type that has
    an outbound translator. *)
Definition well_formed (t : string) (p : payload) : bool :=
  match p with
  | Value _ => bool_decide (t = "CNAME")
  | Values vs =>
      if decide (t = "MX") then forallb is_VMx vs
      else if decide (t = "TXT") then forallb is_VStr vs
      else bool_decide (t ∈ ["A"; "AAAA"; "NS"; "SPF"])
  end.

(** The number of values a record carries. *)
Definition payload_size (p : payload) : nat :=
  match p with
  | Value _ => 1%nat
  | Values vs => length vs
  end.

(** The write requests among the requests executed. *)
Definition writes (rs : list request) : list request :=
  filter (fun r => is_change r = true) rs.

(** The record-set listing requests among the requests executed. *)
Definition rrset_reads (rs : list request) : list request :=
  filter (fun r => is_rrsets_list r = true) rs.

(** A request whose body declares exactly one deletion and nothing else. *)
Definition one_deletion (r : request) : bool :=
  match r with
  | ChangesCreate _ b =>
      match additions b, deletions b with
      | None, Some [_] => true
      | _, _ => false
      end
  | _ => false
  end.

(** The write request [_apply_Create] builds for a fragment, and the one
    [_apply_Delete] builds. *)
Definition addition {Zone : Type} (new : NeutralRecord Zone)
    (zone_id : zone_id) (content : fragment) : request :=
  ChangesCreate zone_id
    {| kind := "dns#change";
       additions := Some [content_update new content];
       deletions := None |}.

Definition deletion {Zone : Type} (existing : NeutralRecord Zone)
    (zone_id : zone_id) (content : fragment) : request :=
  ChangesCreate zone_id
    {| kind := "dns#change";
       additions := None;
       deletions := Some [content_update existing content] |}.

(** The zone [name] is stuck: the inventory is loaded and maps [name] to
    a falsy identifier, and no record sets are cached for it. *)
Definition stuck {W : Type} (name : string) (st : provider W) : Prop :=
  ∃ zs z, _zones st = Some zs ∧ zs !! name = Some z ∧ truthy z = false
          ∧ _zone_records st !! name = None.

(** [values] holds a group for the name and type of [r]. *)
Definition grouped {Zone Rec : Type} `{RecordModel Zone Rec} (zone : Zone)
    (values : list (string * list (string * list rrset))) (r : rrset) : Prop :=
  ∃ types records,
    (hostname_from_fqdn zone (rr_name r), types) ∈ values
    ∧ (rr_type r, records) ∈ types.

(** The listed records of a supported type [t] under host name [name],
    in the order listed. *)
Definition group_of {Zone Rec : Type} `{RecordModel Zone Rec} (zone : Zone)
    (name t : string) (records : list rrset) : list rrset :=
  filter (λ r, hostname_from_fqdn zone (rr_name r) = name
               ∧ rr_type r = t ∧ rr_type r ∈ SUPPORTS) records.

(** What the grouping loop of [populate] maintains: names and types are
    keys without repetition, every group is the matching part of the
    records seen so far, and every supported record seen is in a group. *)
Definition groups_ok {Zone Rec : Type} `{RecordModel Zone Rec} (zone : Zone)
    (values : list (string * list (string * list rrset)))
    (seen : list rrset) : Prop :=
  NoDup values.*1
  ∧ (∀ name types,
       (name, types) ∈ values →
       NoDup types.*1
       ∧ ∀ t l, (t, l) ∈ types → l = group_of zone name t seen)
  ∧ (∀ r, r ∈ seen → rr_type r ∈ SUPPORTS → grouped zone values r).

(** A computation keeps [I] when it holds afterwards whatever the
    outcome, exceptions included. *)
Definition keeps {S A : Type} (I : S -> Prop) (m : M S A) : Prop :=
  ∀ st r st', I st → m st = (r, st') → I st'.

(** All the items of a listing, page after page, when no page fails. *)
Fixpoint listing_items {A} (pages : listing A) : option (list A) :=
  match pages with
  | PageFails _ => None
  | LastPage items => Some items
  | NextPage items next =>
      match listing_items next with
      | Some more => Some (items ++ more)
      | None => None
      end
  end.

(** The identifier the inventory ends up with for a zone name: that of
    the last listed zone with this name. *)
Definition listed_id (items : list managed_zone) (name : string)
  : option zone_id :=
  match last (filter (λ mz, mz_dnsName mz = name) items) with
  | Some mz => Some (ZId (mz_id mz))
  | None => None
  end.

(** What a read of the zone [name] may change between [st] and [st']:
    not the remote service, not the write requests sent, not the cache
    entries of other zones, not a loaded inventory. *)
Definition read_of {W : Type} (name : string) (st st' : provider W) : Prop :=
  client st' = client st
  ∧ writes (sent st') = writes (sent st)
  ∧ (∀ n, n ≠ name → _zone_records st' !! n = _zone_records st !! n)
  ∧ (∀ zs, _zones st = Some zs → _zones st' = Some zs).

(** Two wire entries the inbound translators cannot tell apart: same
    ttl, same priority, same first raw string. *)
Definition same_reading (r r' : rrset) : Prop :=
  rr_ttl r = rr_ttl r'
  ∧ rr_priority r = rr_priority r'
  ∧ head (rr_rrdatas r) = head (rr_rrdatas r').

(** The MX value an entry with a priority and a raw string stands for. *)
Definition mx_value (r : rrset) : rvalue :=
  VMx (default 0 (rr_priority r)) (head_rrdata r).

(** The inventory is loaded and the requests sent so far extend [base]. *)
Definition sent_from {W : Type} (base : list request) (st : provider W) : Prop :=
  is_Some (_zones st) ∧ ∃ more, sent st = base ++ more.

(** The inventory is [zs] and something is cached for [name]. *)
Definition entry_kept {W : Type} (zs : gmap string zone_id) (name : string)
    (st : provider W) : Prop :=
  _zones st = Some zs ∧ is_Some (_zone_records st !! name).

(** The dict [c] holds, under the keys the inbound side reads
    ([name], [type], [ttl], [rrdatas], [priority]), what the wire entry
    [r] holds. *)
Definition reads_as (c : fragment) (r : rrset) : Prop :=
  c !! "name" = Some (PStr (rr_name r))
  ∧ c !! "type" = Some (PStr (rr_type r))
  ∧ c !! "ttl" = Some (PInt (rr_ttl r))
  ∧ c !! "rrdatas" = Some (PList (map VStr (rr_rrdatas r)))
  ∧ c !! "priority" = PInt <$> rr_priority r.

(** The wire entry with the name, type and ttl of [record] and the one
    raw string [s]. *)
Definition entry_of {Zone : Type} (record : NeutralRecord Zone) (s : string)
  : rrset :=
  {| rr_name := rec_fqdn record; rr_type := rec_type record;
     rr_ttl := rec_ttl record; rr_rrdatas := [s]; rr_priority := None |}.

(** ** A small concrete setting, used to run the definitions *)

Module Sample.

(** A remote service whose listings are fixed and which accepts the
    writes to the zones [remote_accepts] admits. *)
Record remote := {
  remote_zones : listing managed_zone;
  remote_rrsets : zone_id -> listing rrset;
  remote_accepts : zone_id -> bool;
}.

#[global] Instance remote_client : DnsClient remote := {|
  managedZones_list w := remote_zones w;
  resourceRecordSets_list w z := remote_rrsets w z;
  changes_create w z _ :=
    if remote_accepts w z then Ok w else Raise (HttpError "notFound");
|}.

(** A zone that keeps the records added to it. *)
Record zone := {
  name : string;
  records : list (string * data);
}.

Definition strip_zone (zname fqdn : string) : string :=
  if String.eqb fqdn zname then EmptyString
  else
    let n := (String.length fqdn - String.length zname - 1)%nat in
    if String.eqb (String.substring n (S (String.length zname)) fqdn)
                  (String "." zname)
    then String.substring 0 n fqdn
    else fqdn.

#[global] Instance zone_model : RecordModel zone (string * data) := {|
  zone_name z := name z;
  hostname_from_fqdn z fqdn := strip_zone (name z) fqdn;
  record_new z nm d lenient := Ok (nm, d);
  add_record z r := Ok {| name := name z; records := (records z ++ [r])%list |};
|}.

Definition rr (nm ty : string) (rrdatas : list string) : rrset :=
  {| rr_name := nm; rr_type := ty; rr_ttl := 300;
     rr_rrdatas := rrdatas; rr_priority := None |}.

(** One managed zone, [unit.tests.], listed on two pages. *)
Definition unit_tests_rrsets : list rrset :=
  [ rr "unit.tests." "NS" ["ns1.unit.tests."];
    rr "unit.tests." "SOA" ["ns1.unit.tests. admin.unit.tests. 1 2 3 4 5"];
    rr "x.unit.tests." "A" ["1.2.3.4"] ].

Definition service : remote := {|
  remote_zones :=
    NextPage [ {| mz_dnsName := "other.tests."; mz_id := "11" |} ]
      (LastPage [ {| mz_dnsName := "unit.tests."; mz_id := "42" |} ]);
  remote_rrsets z :=
    match z with
    | ZId "42" => NextPage (take 2 unit_tests_rrsets)
                    (LastPage (drop 2 unit_tests_rrsets))
    | _ => PageFails (HttpError "notFound")
    end;
  remote_accepts z := truthy z;
|}.

(** A service whose zone holds a CAA record set. *)
Definition caa_rrsets : list rrset :=
  [ rr "unit.tests." "NS" ["ns1.unit.tests."];
    rr "unit.tests." "CAA" ["0 issue ca.unit.tests"] ].

Definition caa_service : remote := {|
  remote_zones := remote_zones service;
  remote_rrsets z :=
    match z with
    | ZId "42" => LastPage caa_rrsets
    | _ => PageFails (HttpError "notFound")
    end;
  remote_accepts z := truthy z;
|}.

(** A service whose managed-zone listing fails on its second page, and
    one whose record-set listing does. *)
Definition no_zones_service : remote := {|
  remote_zones :=
    NextPage [ {| mz_dnsName := "other.tests."; mz_id := "11" |} ]
      (PageFails (HttpError "backendError"));
  remote_rrsets := remote_rrsets service;
  remote_accepts z := truthy z;
|}.

Definition no_rrsets_service : remote := {|
  remote_zones := remote_zones service;
  remote_rrsets z :=
    match z with
    | ZId "42" => NextPage (take 2 unit_tests_rrsets)
                    (PageFails (HttpError "backendError"))
    | _ => PageFails (HttpError "notFound")
    end;
  remote_accepts z := truthy z;
|}.

(** The same service, taking writes whatever the zone identifier. *)
Definition open_service : remote := {|
  remote_zones := remote_zones service;
  remote_rrsets := remote_rrsets service;
  remote_accepts _ := true;
|}.

(** A freshly constructed provider ([__init__]). *)
Definition init (w : remote) : provider remote :=
  {| client := w; _zones := None; _zone_records := ∅; sent := [] |}.

Definition fresh : provider remote := init service.

(** The inventory [service] lists, and the provider once it has read it. *)
Definition inventory : gmap string zone_id :=
  <[ "unit.tests." := ZId "42" ]> (<[ "other.tests." := ZId "11" ]> ∅).

Definition loaded (w : remote) : provider remote :=
  with_zones inventory (add_sent [ManagedZonesList; ManagedZonesList] (init w)).

Definition unit_tests : zone := {| name := "unit.tests."; records := [] |}.
Definition missing : zone := {| name := "missing.tests."; records := [] |}.
Definition other : zone := {| name := "other.tests."; records := [] |}.

Definition record_of (z : zone) (fqdn ty : string) (p : payload)
  : NeutralRecord zone :=
  {| rec_zone := z; rec_fqdn := fqdn; rec_type := ty; rec_ttl := 300;
     rec_payload := p |}.

Definition x_A : NeutralRecord zone :=
  record_of unit_tests "x.unit.tests." "A" (Values [VStr "1.2.3.4"]).

Definition new_A : NeutralRecord zone :=
  record_of missing "www.missing.tests." "A" (Values [VStr "5.6.7.8"]).

Definition t_TXT : NeutralRecord zone :=
  record_of unit_tests "t.unit.tests." "TXT" (Values [VStr "v=spf1\; -all"]).

Definition s_SRV : NeutralRecord zone :=
  record_of unit_tests "_s._tcp.unit.tests." "SRV"
    (Values [VStr "10 20 30 target.unit.tests."]).

End Sample.

(** * Properties *)

(** ** Text escaping *)

Section Escaping.

Lemma prefix_empty s : String.prefix EmptyString s = true.
Proof. by destruct s. Qed.

Lemma prefix_cons a b s1 s2 :
  String.prefix (String a s1) (String b s2)
  = if Ascii.ascii_dec a b then String.prefix s1 s2 else false.
Proof. reflexivity. Qed.

(** The provider's [replace(';', '\;')] escapes character by character. *)
Lemma txt_escape_spec s : txt_escape s = spec_escape s.
Proof.
  unfold txt_escape, PyStr.replace.
  induction s as [|c s IH]; [done|].
  cbn [PyStr.replace_from spec_escape].
  rewrite prefix_cons, prefix_empty.
  destruct (Ascii.ascii_dec ";" c) as [<-|Hne].
  - cbn. by rewrite IH.
  - rewrite IH. destruct (Ascii.eqb_spec c ";"); congruence.
Qed.

(** An escaped string never starts with a bare [;]. *)
Lemma spec_escape_head s s' : spec_escape s ≠ String ";" s'.
Proof.
  destruct s as [|c s]; cbn; [done|].
  destruct (Ascii.eqb_spec c ";"); congruence.
Qed.

Lemma unescape_spec_escape s :
  PyStr.replace_from "\;" ";" 0 (spec_escape s) = s.
Proof.
  induction s as [|c s IH]; [done|].
  cbn [spec_escape].
  destruct (Ascii.eqb_spec c ";") as [->|Hne].
  - cbn [PyStr.replace_from].
    rewrite !prefix_cons, prefix_empty.
    destruct (Ascii.ascii_dec "\" "\"); [|done].
    destruct (Ascii.ascii_dec ";" ";"); [|done].
    cbn. by rewrite IH.
  - cbn [PyStr.replace_from].
    assert (String.prefix "\;" (String c (spec_escape s)) = false) as ->.
    { rewrite prefix_cons. destruct (Ascii.ascii_dec "\" c); [|done].
      destruct (spec_escape s) as [|d t] eqn:E; [done|].
      rewrite prefix_cons, prefix_empty.
      destruct (Ascii.ascii_dec ";" d) as [<-|]; [|done].
      by apply spec_escape_head in E. }
    by rewrite IH.
Qed.

(** Unescaping undoes escaping, on every string. *)
Lemma txt_unescape_escape s : txt_unescape (txt_escape s) = s.
Proof. rewrite txt_escape_spec. apply unescape_spec_escape. Qed.

Lemma strip_cons c d s :
  strip (String c (String d s))
  = if Ascii.eqb c "\" && Ascii.eqb d ";" then strip (String d s)
    else String c (strip (String d s)).
Proof. reflexivity. Qed.

Lemma strip_cons_other c s :
  c ≠ "\"%char → strip (String c s) = String c (strip s).
Proof.
  intros Hc. destruct s as [|d s]; [done|].
  rewrite strip_cons. by destruct (Ascii.eqb_spec c "\").
Qed.

Lemma head_not_semicolon c s :
  c ≠ ";"%char →
  match String c s with
  | String ";" _ => String "\" (String c s)
  | _ => String c s
  end = String c s.
Proof. intros Hc. by destruct c as [[] [] [] [] [] [] [] []]. Qed.

(** A string in escaped form is the escaping of its stripped form. *)
Lemma escaped_from_strip s :
  (escaped_from false s = true → spec_escape (strip s) = s)
  ∧ (escaped_from true s = true →
     spec_escape (strip s)
     = match s with
       | String ";" _ => String "\" s
       | _ => s
       end).
Proof.
  induction s as [|c s [IHf IHt]]; [done|].
  cbn [escaped_from].
  destruct (Ascii.eqb_spec c ";") as [->|Hc].
  - split; [done|]. rewrite andb_true_l. intros Hs.
    rewrite strip_cons_other by done.
    cbn. by rewrite IHf.
  - rewrite head_not_semicolon by done.
    destruct (Ascii.eqb_spec c "\") as [->|Hb].
    + assert (escaped_from true s = true →
              spec_escape (strip (String "\" s)) = String "\" s) as Hgoal.
      { intros Hs. specialize (IHt Hs).
        destruct s as [|d s]; [done|].
        rewrite strip_cons, Ascii.eqb_refl, andb_true_l.
        destruct (Ascii.eqb_spec d ";") as [->|Hd]; [exact IHt|].
        rewrite head_not_semicolon in IHt by done.
        change (spec_escape (String "\" ?t)) with (String "\" (spec_escape t)).
        by rewrite IHt. }
      split; exact Hgoal.
    + assert (escaped_from false s = true →
              spec_escape (strip (String c s)) = String c s) as Hgoal.
      { intros Hs. specialize (IHf Hs).
        rewrite strip_cons_other by done.
        cbn [spec_escape]. destruct (Ascii.eqb_spec c ";"); [done|].
        by rewrite IHf. }
      split; exact Hgoal.
Qed.

Lemma is_escaped_image v : is_escaped v = true → v = txt_escape (strip v).
Proof.
  intros Hv. rewrite txt_escape_spec.
  symmetry. by apply escaped_from_strip.
Qed.

Lemma escaped_from_spec_escape b s : escaped_from b (spec_escape s) = true.
Proof.
  revert b. induction s as [|c s IH]; intros b; [done|].
  cbn [spec_escape]. destruct (Ascii.eqb_spec c ";") as [->|Hc].
  - change (escaped_from true (String ";" (spec_escape s)) = true).
    cbn. apply IH.
  - cbn [escaped_from]. destruct (Ascii.eqb_spec c ";"); [done|]. apply IH.
Qed.

Lemma txt_escape_is_escaped s : is_escaped (txt_escape s) = true.
Proof. rewrite txt_escape_spec. apply escaped_from_spec_escape. Qed.

(** Escaping after unescaping is the identity on escaped forms. *)
Lemma txt_escape_unescape v :
  is_escaped v = true → txt_escape (txt_unescape v) = v.
Proof.
  intros Hv. rewrite (is_escaped_image v Hv) at 1.
  rewrite txt_unescape_escape. symmetry. by apply is_escaped_image.
Qed.

End Escaping.

(** ** Inbound translation *)

Section Inbound.

Lemma rmap_total {A B} (f : A → result B) (g : A → B) xs :
  Forall (λ x, f x = Ok (g x)) xs → rmap f xs = Ok (map g xs).
Proof.
  induction 1 as [|x xs Hx _ IH]; [done|].
  cbn. by rewrite Hx, IH.
Qed.

Lemma rrdatas_0_head r : rr_rrdatas r ≠ [] → rrdatas_0 r = Ok (head_rrdata r).
Proof. unfold rrdatas_0, head_rrdata. by destruct (rr_rrdatas r). Qed.

Lemma getattr_data_for_multi t :
  t ∈ ["A"; "AAAA"; "TXT"; "SPF"] →
  getattr_data_for t = Ok (if decide (t = "TXT") then _data_for_TXT else _data_for_multiple).
Proof.
  intros Ht. repeat (apply elem_of_cons in Ht as [->|Ht]); try done.
  by apply elem_of_nil in Ht.
Qed.

Lemma data_for_multi_values t records r0 :
  first_record records = Ok r0 →
  Forall (λ r, rr_rrdatas r ≠ []) records →
  (if decide (t = "TXT") then _data_for_TXT else _data_for_multiple) t records
  = Ok {| d_ttl := rr_ttl r0; d_type := t;
          d_payload := Values (map (λ r, inbound_value t (head_rrdata r)) records) |}.
Proof.
  intros H0 Hne. unfold inbound_value.
  destruct (decide (t = "TXT")); unfold _data_for_TXT, _data_for_multiple;
    rewrite H0; cbn [rbind].
  - rewrite (rmap_total _ (λ r, VStr (txt_escape (head_rrdata r)))); [done|].
    eapply Forall_impl; [exact Hne|]. intros r Hr; cbn. by rewrite rrdatas_0_head.
  - rewrite (rmap_total _ (λ r, VStr (head_rrdata r))); [done|].
    eapply Forall_impl; [exact Hne|]. intros r Hr; cbn. by rewrite rrdatas_0_head.
Qed.

Lemma concat_singletons (records : list rrset) :
  Forall (λ r, length (rr_rrdatas r) = 1%nat) records →
  concat (map rr_rrdatas records) = map head_rrdata records.
Proof.
  induction 1 as [|r rs Hr _ IH]; [done|].
  cbn. rewrite IH. unfold head_rrdata.
  destruct (rr_rrdatas r) as [|s [|]]; done.
Qed.

End Inbound.

(** ** Outbound translation *)

(** Refute [H : x ∈ l] for a literal [x] that is not in the literal [l]. *)
Ltac not_in_list H :=
  repeat (apply elem_of_cons in H as [H|H]; [discriminate H|]);
  by apply elem_of_nil in H.

Section OutboundFacts.
Context {Zone : Type}.
Implicit Types record : NeutralRecord Zone.

Lemma gen_for_total {A B} (f : A → result B) (g : A → B) xs :
  Forall (λ x, f x = Ok (g x)) xs →
  exhausts (gen_for f xs) = true ∧ yielded (gen_for f xs) = map g xs.
Proof.
  induction 1 as [|x xs Hx _ [IH1 IH2]]; [done|].
  cbn. rewrite Hx. cbn. by rewrite IH1, IH2.
Qed.

Lemma contents_for_multiple_values record vs :
  rec_payload record = Values vs →
  exhausts (_contents_for_multiple record) = true
  ∧ yielded (_contents_for_multiple record)
    = map (λ v, {[ "rrdatas" := PList [v] ]}) vs.
Proof.
  intros Hp. unfold _contents_for_multiple, gen_values, get_values.
  rewrite Hp. apply gen_for_total. by apply Forall_forall.
Qed.

Lemma contents_for_TXT_values record vs :
  rec_payload record = Values vs →
  forallb is_VStr vs = true →
  exhausts (_contents_for_TXT record) = true
  ∧ yielded (_contents_for_TXT record)
    = map (λ v, match v with
                | VStr s => {[ "content" := PStr (txt_unescape s) ]}
                | VMx _ _ => ∅
                end) vs.
Proof.
  intros Hp Hvs. unfold _contents_for_TXT, gen_values, get_values.
  rewrite Hp. apply gen_for_total.
  apply Forall_forall. intros v Hv.
  rewrite forallb_forall in Hvs. apply list_elem_of_In, Hvs in Hv.
  by destruct v.
Qed.

Lemma contents_for_MX_values record vs :
  rec_payload record = Values vs →
  forallb is_VMx vs = true →
  exhausts (_contents_for_MX record) = true
  ∧ yielded (_contents_for_MX record)
    = map (λ v, match v with
                | VMx preference exchange =>
                    <[ "priority" := PInt preference ]>
                      {[ "content" := PStr exchange ]}
                | VStr _ => ∅
                end) vs.
Proof.
  intros Hp Hvs. unfold _contents_for_MX, gen_values, get_values.
  rewrite Hp. apply gen_for_total.
  apply Forall_forall. intros v Hv.
  rewrite forallb_forall in Hvs. apply list_elem_of_In, Hvs in Hv.
  by destruct v.
Qed.

(** The record types without an outbound translator. *)
Lemma getattr_contents_for_missing (t : string) :
  t ∉ ["A"; "AAAA"; "NS"; "SPF"; "TXT"; "CNAME"; "MX"] →
  getattr_contents_for (Zone := Zone) t
  = Raise (AttributeError ("_contents_for_" +:+ t)).
Proof.
  intros Ht. unfold getattr_contents_for.
  repeat (case_decide; [destruct Ht; subst t; compute_done|]).
  done.
Qed.

End OutboundFacts.

(** C3 (as amended). For a record of a type that has an outbound
    translator and the payload its type calls for, the translator is
    found, runs to completion and yields exactly one fragment per
    element of [values] (per preference/exchange pair for MX); for A,
    AAAA, NS and SPF the fragment of a value is [{rrdatas: [value]}];
    for CNAME exactly one fragment, [{content: value}], is yielded. *)
Theorem contents_cardinality {Zone : Type} (record : NeutralRecord Zone) :
  well_formed (rec_type record) (rec_payload record) = true →
  ∃ contents_for,
    getattr_contents_for (rec_type record) = Ok contents_for
    ∧ exhausts (contents_for record) = true
    ∧ length (yielded (contents_for record)) = payload_size (rec_payload record)
    ∧ (rec_type record ∈ ["A"; "AAAA"; "NS"; "SPF"] →
       ∀ vs, rec_payload record = Values vs →
         yielded (contents_for record)
         = map (λ v, {[ "rrdatas" := PList [v] ]}) vs)
    ∧ (rec_type record = "CNAME" →
       ∃ v, rec_payload record = Value v
            ∧ yielded (contents_for record) = [ {[ "content" := PStr v ]} ]).
Proof.
  destruct record as [z fqdn t ttl p]; cbn [rec_type rec_payload].
  set (record := {| rec_zone := z; rec_fqdn := fqdn; rec_type := t;
                    rec_ttl := ttl; rec_payload := p |}).
  unfold well_formed. destruct p as [v|vs] eqn:Ep.
  - intros ->%bool_decide_eq_true.
    exists _contents_for_CNAME. split; [reflexivity|].
    repeat split; try reflexivity.
    + intros Hin. not_in_list Hin.
    + intros _. by exists v.
  - destruct (decide (t = "MX")) as [->|HMX].
    { intros Hvs. exists _contents_for_MX. split; [reflexivity|].
      destruct (contents_for_MX_values record vs eq_refl Hvs) as [He Hy].
      split; [done|]. split; [by rewrite Hy, length_map|].
      split; [intros Hin; not_in_list Hin|done]. }
    destruct (decide (t = "TXT")) as [->|HTXT].
    { intros Hvs. exists _contents_for_TXT. split; [reflexivity|].
      destruct (contents_for_TXT_values record vs eq_refl Hvs) as [He Hy].
      split; [done|]. split; [by rewrite Hy, length_map|].
      split; [intros Hin; not_in_list Hin|done]. }
    intros Ht%bool_decide_eq_true.
    destruct (contents_for_multiple_values record vs eq_refl) as [He Hy].
    exists _contents_for_multiple.
    split.
    { repeat (apply elem_of_cons in Ht as [->|Ht]); try reflexivity.
      by apply elem_of_nil in Ht. }
    split; [done|]. split; [by rewrite Hy, length_map|].
    split.
    + intros _ vs' [= <-]. exact Hy.
    + intros ->. not_in_list Ht.
Qed.

Lemma contents_cardinality_witness :
  ∃ contents_for,
    getattr_contents_for (rec_type Sample.x_A) = Ok contents_for
    ∧ exhausts (contents_for Sample.x_A) = true
    ∧ length (yielded (contents_for Sample.x_A))
      = payload_size (rec_payload Sample.x_A)
    ∧ (rec_type Sample.x_A ∈ ["A"; "AAAA"; "NS"; "SPF"] →
       ∀ vs, rec_payload Sample.x_A = Values vs →
         yielded (contents_for Sample.x_A)
         = map (λ v, {[ "rrdatas" := PList [v] ]}) vs)
    ∧ (rec_type Sample.x_A = "CNAME" →
       ∃ v, rec_payload Sample.x_A = Value v
            ∧ yielded (contents_for Sample.x_A) = [ {[ "content" := PStr v ]} ]).
Proof. apply (contents_cardinality Sample.x_A). reflexivity. Defined.

(** C3 as stated fails: the fragment of an A record is keyed [rrdatas]
    and holds a one-element list, not [{content: value}]; and a
    multi-value SRV record has no outbound translator at all. *)
Lemma contents_for_A_not_content :
  (∃ contents_for,
     getattr_contents_for "A" = Ok contents_for
     ∧ yielded (contents_for Sample.x_A)
       = [ {[ "rrdatas" := PList [VStr "1.2.3.4"] ]} ]
     ∧ yielded (contents_for Sample.x_A) ≠ [ {[ "content" := PStr "1.2.3.4" ]} ])
  ∧ getattr_contents_for (Zone := Sample.zone) (rec_type Sample.s_SRV)
    = Raise (AttributeError "_contents_for_SRV").
Proof.
  split; [|reflexivity].
  exists _contents_for_A. split; [reflexivity|]. split; [reflexivity|].
  intros Heq.
  apply (f_equal (λ l : list fragment,
                    match l with
                    | m :: _ => m !! "content"
                    | [] => None
                    end)) in Heq.
  vm_compute in Heq. discriminate Heq.
Qed.

(** C5. Inbound TXT translation escapes every [;] of the raw string to
    [\;]; outbound translation turns the escaped string back into the
    raw one; and for a TXT record with a single value in escaped form,
    translating out and then translating the written content back in
    gives the record's own payload. *)
Theorem txt_escaping_round_trip {Zone : Type} (record : NeutralRecord Zone)
    (v : string) :
  rec_payload record = Values [VStr v] →
  is_escaped v = true →
  (∀ t r raw, rr_rrdatas r = [raw] →
     _data_for_TXT t [r]
     = Ok {| d_ttl := rr_ttl r; d_type := t;
             d_payload := Values [VStr (spec_escape raw)] |})
  ∧ (∀ raw, txt_unescape (spec_escape raw) = raw)
  ∧ ∃ c, _contents_for_TXT record = GYield {[ "content" := PStr c ]} GStop
         ∧ ∀ r, rr_rrdatas r = [c] →
             ∃ d, _data_for_TXT (rec_type record) [r] = Ok d
                  ∧ d_payload d = rec_payload record.
Proof.
  intros Hp Hv.
  assert (∀ t r raw, rr_rrdatas r = [raw] →
            _data_for_TXT t [r]
            = Ok {| d_ttl := rr_ttl r; d_type := t;
                    d_payload := Values [VStr (spec_escape raw)] |}) as Hin.
  { intros t r raw Hr. unfold _data_for_TXT.
    cbn [first_record rbind rmap]. unfold rrdatas_0. rewrite Hr.
    cbn [rbind]. by rewrite txt_escape_spec. }
  split; [exact Hin|]. split.
  { intros raw. by rewrite <- txt_escape_spec, txt_unescape_escape. }
  exists (txt_unescape v). split.
  - unfold _contents_for_TXT, gen_values, get_values. by rewrite Hp.
  - intros r Hr. eexists. split; [by apply Hin|].
    cbn. by rewrite Hp, <- txt_escape_spec, txt_escape_unescape.
Qed.

Lemma txt_escaping_round_trip_witness :
  (∀ t r raw, rr_rrdatas r = [raw] →
     _data_for_TXT t [r]
     = Ok {| d_ttl := rr_ttl r; d_type := t;
             d_payload := Values [VStr (spec_escape raw)] |})
  ∧ (∀ raw, txt_unescape (spec_escape raw) = raw)
  ∧ ∃ c, _contents_for_TXT Sample.t_TXT = GYield {[ "content" := PStr c ]} GStop
         ∧ ∀ r, rr_rrdatas r = [c] →
             ∃ d, _data_for_TXT (rec_type Sample.t_TXT) [r] = Ok d
                  ∧ d_payload d = rec_payload Sample.t_TXT.
Proof.
  apply (txt_escaping_round_trip Sample.t_TXT "v=spf1\; -all"); reflexivity.
Defined.

(** The round trip on the sample TXT record, computed. *)
Example txt_round_trip_runs :
  _contents_for_TXT Sample.t_TXT
  = GYield {[ "content" := PStr "v=spf1; -all" ]} GStop
  ∧ _data_for_TXT "TXT" [Sample.rr "t.unit.tests." "TXT" ["v=spf1; -all"]]
    = Ok {| d_ttl := 300; d_type := "TXT";
            d_payload := rec_payload Sample.t_TXT |}.
Proof. split; reflexivity. Qed.

(** ** Running the monad *)

Section Monad.
Context {S : Type}.

Lemma bind_inv {A B} (m : M S A) (k : A → M S B) st r st' :
  bind m k st = (r, st') →
  (∃ a st1, m st = (Ok a, st1) ∧ k a st1 = (r, st'))
  ∨ (∃ e, m st = (Raise e, st') ∧ r = Raise e).
Proof.
  unfold bind. destruct (m st) as [[a|e] st1]; intros Hk.
  - left. by exists a, st1.
  - right. exists e. by injection Hk as <- <-.
Qed.

Lemma bind_Ok_inv {A B} (m : M S A) (k : A → M S B) st b st' :
  bind m k st = (Ok b, st') →
  ∃ a st1, m st = (Ok a, st1) ∧ k a st1 = (Ok b, st').
Proof.
  intros [Hok|(e & _ & Hr)]%bind_inv; [exact Hok|discriminate Hr].
Qed.

Lemma bind_run {A B} (m : M S A) (k : A → M S B) st a st1 :
  m st = (Ok a, st1) → bind m k st = k a st1.
Proof. unfold bind. by intros ->. Qed.

Lemma bind_raise {A B} (m : M S A) (k : A → M S B) st e st1 :
  m st = (Raise e, st1) → bind m k st = (Raise e, st1).
Proof. unfold bind. by intros ->. Qed.

Lemma keeps_ret {A} (I : S → Prop) (a : A) : keeps I (ret a).
Proof. intros st r st' HI [= _ <-]. exact HI. Qed.

Lemma keeps_raise {A} (I : S → Prop) e : keeps I (raise (A := A) e).
Proof. intros st r st' HI [= _ <-]. exact HI. Qed.

Lemma keeps_lift {A} (I : S → Prop) (x : result A) : keeps I (lift x).
Proof. intros st r st' HI [= _ <-]. exact HI. Qed.

Lemma keeps_bind {A B} (I : S → Prop) (m : M S A) (k : A → M S B) :
  keeps I m → (∀ a, keeps I (k a)) → keeps I (bind m k).
Proof.
  intros Hm Hk st r st' HI [(a & st1 & H1 & H2)|(e & H1 & _)]%bind_inv.
  - eapply Hk; [|exact H2]. eapply Hm; [exact HI|exact H1].
  - eapply Hm; [exact HI|exact H1].
Qed.

(** Reading the state first: the continuation runs on the state read. *)
Lemma keeps_get {A} (I : S → Prop) (k : S → M S A) :
  (∀ st r st', I st → k st st = (r, st') → I st') → keeps I (bind get k).
Proof. intros Hk st r st' HI Hrun. eapply Hk; [exact HI|exact Hrun]. Qed.

Lemma keeps_for_each {A} (I : S → Prop) (body : A → M S unit) xs :
  (∀ x, keeps I (body x)) → keeps I (for_each body xs).
Proof.
  intros Hbody. induction xs as [|x xs IH]; cbn [for_each].
  - apply keeps_ret.
  - apply keeps_bind; [apply Hbody|]. intros _. exact IH.
Qed.

Lemma keeps_for_gen {A} (I : S → Prop) (body : A → M S unit) g :
  (∀ x, keeps I (body x)) → keeps I (for_gen body g).
Proof.
  intros Hbody. induction g as [|x g IH|e]; cbn [for_gen].
  - apply keeps_ret.
  - apply keeps_bind; [apply Hbody|]. intros _. exact IH.
  - apply keeps_raise.
Qed.

(** A loop fails as soon as one of its iterations is bound to fail. *)
Lemma for_each_fails {A} (body : A → M S unit) xs x :
  x ∈ xs →
  (∀ st, ∃ e st', body x st = (Raise e, st')) →
  ∀ st, ∃ e st', for_each body xs st = (Raise e, st').
Proof.
  intros Hx Hfail. induction xs as [|y xs IH]; [by apply elem_of_nil in Hx|].
  intros st. cbn [for_each].
  destruct (body y st) as [[[]|e] st1] eqn:Hy.
  - apply elem_of_cons in Hx as [->|Hx].
    + destruct (Hfail st) as (e & st' & He). congruence.
    + rewrite (bind_run _ _ _ _ _ Hy). by apply IH.
  - exists e, st1. by apply bind_raise.
Qed.

End Monad.

(** ** Running the provider *)

Section Runs.
Context {W : Type} `{DnsClient W}.
Implicit Types st : provider W.

Lemma add_sent_nil st : add_sent [] st = st.
Proof. destruct st. unfold add_sent. cbn. by rewrite app_nil_r. Qed.

Lemma add_sent_add rs1 rs2 st :
  add_sent rs2 (add_sent rs1 st) = add_sent (rs1 ++ rs2) st.
Proof. unfold add_sent. cbn. by rewrite app_assoc. Qed.

(** A paginated loop executes one request per page and touches nothing
    but the list of requests. *)
Lemma while_request_run {A B} req (step : B → A → B) acc pages st :
  while_request req step acc pages st
  = (listing_result step acc pages,
     add_sent (replicate (listing_requests pages) req) st).
Proof.
  revert acc st. induction pages as [e|items|items next IH]; intros acc st.
  - reflexivity.
  - reflexivity.
  - cbn [while_request listing_result listing_requests].
    unfold bind at 1. cbn [log]. rewrite IH.
    by rewrite add_sent_add.
Qed.

Lemma listing_requests_pos {A} (pages : listing A) :
  ∃ n, listing_requests pages = S n.
Proof. destruct pages; eauto. Qed.

Lemma zones_loaded st zs : _zones st = Some zs → zones st = (Ok zs, st).
Proof. intros Hz. unfold zones, bind, get. by rewrite Hz. Qed.

(** Whatever [zones] does, it only lists managed zones; when it
    returns, the mapping it returns is the one now loaded. *)
Lemma zones_run st r st' :
  zones st = (r, st') →
  (∃ n, st' = add_sent (replicate n ManagedZonesList) st
        ∨ ∃ zs, st' = with_zones zs (add_sent (replicate n ManagedZonesList) st))
  ∧ (∀ zs, r = Ok zs → _zones st' = Some zs)
  ∧ (∀ zs, _zones st = Some zs → r = Ok zs ∧ st' = st).
Proof.
  unfold zones, bind at 1, get. destruct (_zones st) as [zs|] eqn:Hz.
  - intros [= <- <-]. split; [|split].
    + exists 0%nat. left. by rewrite add_sent_nil.
    + by intros ? [= <-].
    + by intros ? [= <-].
  - unfold bind at 1. rewrite while_request_run.
    destruct (listing_result _ _ _) as [zs|e]; cbn; intros [= <- <-].
    + split; [|split]; [|by intros ? [= <-]|done].
      eexists. right. by eexists.
    + split; [|split]; [|done|done]. eexists. by left.
Qed.

Lemma zones_get_loaded st zs name :
  _zones st = Some zs →
  zones_get name st = (Ok (default ZFalse (zs !! name)), st).
Proof.
  intros Hz. unfold zones_get. by rewrite (bind_run _ _ _ _ _ (zones_loaded _ _ Hz)).
Qed.

Lemma zones_getitem_loaded st zs name :
  _zones st = Some zs →
  zones_getitem name st
  = match zs !! name with
    | Some z => (Ok z, st)
    | None => (Raise (KeyError name), st)
    end.
Proof.
  intros Hz. unfold zones_getitem.
  rewrite (bind_run _ _ _ _ _ (zones_loaded _ _ Hz)).
  by destruct (zs !! name).
Qed.

(** The listing part of [zone_records], once the inventory is loaded. *)
Lemma fetch_zone_records_loaded st zs name :
  _zones st = Some zs →
  let zone_id := default ZFalse (zs !! name) in
  let pages := resourceRecordSets_list (client st) zone_id in
  let st1 := add_sent (replicate (listing_requests pages)
                         (ResourceRecordSetsList zone_id)) st in
  fetch_zone_records name st
  = match listing_result (λ records r, (records ++ [r])%list) [] pages with
    | Ok records =>
        (Ok records,
         with_zone_records (<[ name := SnapList records ]> (_zone_records st)) st1)
    | Raise e => (Raise e, st1)
    end.
Proof.
  intros Hz. cbn zeta. unfold fetch_zone_records.
  rewrite (bind_run _ _ _ _ _ (zones_get_loaded _ _ name Hz)).
  unfold bind at 1, get. unfold bind at 1. rewrite while_request_run.
  by destruct (listing_result _ _ _).
Qed.

Lemma zone_records_named_loaded st zs name :
  _zones st = Some zs →
  zone_records_named name st
  = if bool_decide (is_Some (_zone_records st !! name))
       || truthy (default ZFalse (zs !! name))
    then fetch_zone_records name st
    else (Ok [], st).
Proof.
  intros Hz. unfold zone_records_named, bind at 1, get.
  destruct (_zone_records st !! name) as [snap|] eqn:Hc.
  - rewrite bool_decide_eq_true_2 by eauto. done.
  - rewrite bool_decide_eq_false_2 by (by intros [? ?]).
    rewrite (bind_run _ _ _ _ _ (zones_get_loaded _ _ name Hz)).
    by destruct (truthy _).
Qed.

Lemma changes_create_execute_run st zone_id body :
  changes_create_execute zone_id body st
  = match changes_create (client st) zone_id body with
    | Ok w => (Ok tt, with_client w (add_sent [ChangesCreate zone_id body] st))
    | Raise e => (Raise e, add_sent [ChangesCreate zone_id body] st)
    end.
Proof.
  unfold changes_create_execute, bind, log, get, lift, set_client. cbn.
  by destruct (changes_create _ _ _).
Qed.

End Runs.

(** ** Invariants of the instance state

    [I] is a property of the state that holds only once the inventory
    is loaded, ignores the client and the requests sent, and survives
    caching a listing under the names in [ok_name]; for the other names
    it forces [zone_records] to return early. *)

Section Invariants.
Context {W : Type} `{DnsClient W} {Zone Rec : Type} `{RecordModel Zone Rec}.
Variable I : provider W → Prop.
Variable ok_name : string → Prop.
Context `{∀ n, Decision (ok_name n)}.
Hypothesis I_loaded : ∀ st, I st → is_Some (_zones st).
Hypothesis I_sent : ∀ st rs, I st → I (add_sent rs st).
Hypothesis I_client : ∀ st w, I st → I (with_client w st).
Hypothesis I_cache : ∀ st n records,
  I st → ok_name n →
  I (with_zone_records (<[ n := SnapList records ]> (_zone_records st)) st).
Hypothesis I_idle : ∀ st n zs,
  I st → ¬ ok_name n → _zones st = Some zs →
  _zone_records st !! n = None ∧ truthy (default ZFalse (zs !! n)) = false.

Lemma keeps_zones_getitem n : keeps I (zones_getitem n).
Proof.
  intros st r st' HI Hrun. destruct (I_loaded st HI) as [zs Hz].
  rewrite (zones_getitem_loaded _ _ _ Hz) in Hrun.
  destruct (zs !! n); by injection Hrun as <- <-.
Qed.

Lemma keeps_zone_records_named n : keeps I (zone_records_named n).
Proof.
  intros st r st' HI Hrun. destruct (I_loaded st HI) as [zs Hz].
  rewrite (zone_records_named_loaded _ _ _ Hz) in Hrun.
  destruct (decide (ok_name n)) as [Hok|Hno].
  - destruct (_ || _).
    + rewrite (fetch_zone_records_loaded _ _ _ Hz) in Hrun.
      destruct (listing_result _ _ _); injection Hrun as <- <-.
      * apply (I_cache (add_sent _ st)); [by apply I_sent|done].
      * by apply I_sent.
    + by injection Hrun as <- <-.
  - destruct (I_idle st n zs HI Hno Hz) as [Hc Ht].
    rewrite Hc, Ht in Hrun.
    rewrite bool_decide_eq_false_2 in Hrun by (by intros [? ?]).
    by injection Hrun as <- <-.
Qed.

Lemma keeps_changes_create_execute zone_id body :
  keeps I (changes_create_execute zone_id body).
Proof.
  intros st r st' HI Hrun. rewrite changes_create_execute_run in Hrun.
  destruct (changes_create _ _ _); injection Hrun as <- <-.
  - by apply I_client, I_sent.
  - by apply I_sent.
Qed.

Lemma keeps_apply_Create new : keeps I (_apply_Create new).
Proof.
  unfold _apply_Create.
  apply keeps_bind; [apply keeps_zones_getitem|]. intros zone_id.
  apply keeps_bind; [apply keeps_lift|]. intros contents_for.
  apply keeps_for_gen. intros content. apply keeps_changes_create_execute.
Qed.

Lemma keeps_apply_Delete existing : keeps I (_apply_Delete existing).
Proof.
  unfold _apply_Delete.
  apply keeps_bind; [apply keeps_zones_getitem|]. intros zone_id.
  apply keeps_bind; [apply keeps_zone_records_named|]. intros records.
  apply keeps_for_each. intros record.
  apply keeps_bind; [apply keeps_lift|]. intros contents_for.
  apply keeps_for_gen. intros content. apply keeps_changes_create_execute.
Qed.

Lemma keeps_apply_change c : keeps I (apply_change c).
Proof.
  destruct c; cbn [apply_change].
  - apply keeps_apply_Create.
  - apply keeps_apply_Delete.
  - apply keeps_raise.
Qed.

End Invariants.

Section Stability.
Context {W : Type} `{DnsClient W} {Zone Rec : Type} `{RecordModel Zone Rec}.

(** Once loaded, the inventory is not changed by applying a change. *)
Lemma apply_change_keeps_zones zs (c : change Zone) :
  keeps (λ st : provider W, _zones st = Some zs) (apply_change c).
Proof.
  apply (keeps_apply_change _ (λ _, True)).
  - intros st Hz. by eexists.
  - done.
  - done.
  - done.
  - intros st n zs' _ Hno. by destruct Hno.
Qed.

Lemma stuck_loaded name (st : provider W) : stuck name st → is_Some (_zones st).
Proof. intros (zs & z & Hz & _). by eexists. Qed.

Lemma stuck_idle name (st : provider W) n zs :
  stuck name st → ¬ n ≠ name → _zones st = Some zs →
  _zone_records st !! n = None ∧ truthy (default ZFalse (zs !! n)) = false.
Proof.
  intros (zs' & z & Hz & Hl & Ht & Hc) Hn Hz'.
  destruct (decide (n = name)) as [->|]; [|done].
  rewrite Hz in Hz'. injection Hz' as <-. by rewrite Hl.
Qed.

Lemma stuck_cache name (st : provider W) n snap :
  stuck name st → n ≠ name →
  stuck name (with_zone_records (<[ n := snap ]> (_zone_records st)) st).
Proof.
  intros (zs & z & Hz & Hl & Ht & Hc) Hn.
  exists zs, z. repeat split; try done. cbn. by rewrite lookup_insert_ne.
Qed.

(** A stuck zone stays stuck through any read of any zone. *)
Lemma zone_records_keeps_stuck name n :
  keeps (stuck (W := W) name) (zone_records_named n).
Proof.
  apply (keeps_zone_records_named _ (λ n, n ≠ name)).
  - apply stuck_loaded.
  - intros st rs (zs & z & Hs). by exists zs, z.
  - intros st n' records Hs Hn. by apply stuck_cache.
  - intros st n' zs. apply stuck_idle.
Qed.

(** ... and through any change. *)
Lemma apply_change_keeps_stuck name (c : change Zone) :
  keeps (stuck (W := W) name) (apply_change c).
Proof.
  apply (keeps_apply_change _ (λ n, n ≠ name)).
  - apply stuck_loaded.
  - intros st rs (zs & z & Hs). by exists zs, z.
  - intros st w (zs & z & Hs). by exists zs, z.
  - intros st n' records Hs Hn. by apply stuck_cache.
  - intros st n' zs. apply stuck_idle.
Qed.

(** A read of a stuck zone returns the empty list and does nothing. *)
Lemma stuck_zone_records name (st : provider W) :
  stuck name st → zone_records_named name st = (Ok [], st).
Proof.
  intros (zs & z & Hz & Hl & Ht & Hc).
  rewrite (zone_records_named_loaded _ _ _ Hz), Hc, Hl.
  rewrite bool_decide_eq_false_2 by (by intros [? ?]).
  cbn [default from_option id orb]. by rewrite Ht.
Qed.

End Stability.

(** ** Reads *)

Section Reads.
Context {W : Type} `{DnsClient W} {Zone Rec : Type} `{RecordModel Zone Rec}.
Implicit Types st : provider W.

Lemma rrset_reads_app rs1 rs2 :
  rrset_reads (rs1 ++ rs2) = rrset_reads rs1 ++ rrset_reads rs2.
Proof. apply filter_app. Qed.

Lemma rrset_reads_zones_list n : rrset_reads (replicate n ManagedZonesList) = [].
Proof. induction n as [|n IH]; [done|]. exact IH. Qed.

Lemma zones_sends_no_reads st r st' :
  zones st = (r, st') → rrset_reads (sent st') = rrset_reads (sent st).
Proof.
  intros [(n & [->|[zs ->]]) _]%zones_run; cbn;
    by rewrite rrset_reads_app, rrset_reads_zones_list, app_nil_r.
Qed.

(** A zone with cached record sets is listed again on every read. *)
Lemma zone_records_cached_refetches st zs name :
  _zones st = Some zs →
  is_Some (_zone_records st !! name) →
  ∃ r st' more,
    zone_records_named name st = (r, st')
    ∧ sent st' = sent st ++ ResourceRecordSetsList (default ZFalse (zs !! name)) :: more.
Proof.
  intros Hz Hc. rewrite (zone_records_named_loaded _ _ _ Hz).
  rewrite bool_decide_eq_true_2 by done. cbn [orb].
  rewrite (fetch_zone_records_loaded _ _ _ Hz).
  destruct (listing_requests_pos
              (resourceRecordSets_list (client st) (default ZFalse (zs !! name))))
    as [n ->].
  destruct (listing_result _ _ _); eexists _, _, _; (split; [reflexivity|]); done.
Qed.

(** So is a zone with a usable identifier. *)
Lemma zone_records_known_fetches st zs name :
  _zones st = Some zs →
  truthy (default ZFalse (zs !! name)) = true →
  ∃ r st' more,
    zone_records_named name st = (r, st')
    ∧ sent st' = sent st ++ ResourceRecordSetsList (default ZFalse (zs !! name)) :: more.
Proof.
  intros Hz Ht. rewrite (zone_records_named_loaded _ _ _ Hz), Ht, orb_true_r.
  rewrite (fetch_zone_records_loaded _ _ _ Hz).
  destruct (listing_requests_pos
              (resourceRecordSets_list (client st) (default ZFalse (zs !! name))))
    as [n ->].
  destruct (listing_result _ _ _); eexists _, _, _; (split; [reflexivity|]); done.
Qed.

End Reads.

(** C2, on the code: after a first read of [unit.tests.] has cached its
    record sets, a second read, with no [_apply] in between, lists the
    zone again (two pages, two requests) instead of answering from the
    cache. *)
Lemma second_read_fetches_again :
  let st1 := snd (zone_records Sample.unit_tests Sample.fresh) in
  let st2 := snd (zone_records Sample.unit_tests st1) in
  _zone_records st1 !! "unit.tests." = Some (SnapList Sample.unit_tests_rrsets)
  ∧ sent st1
    = [ManagedZonesList; ManagedZonesList;
       ResourceRecordSetsList (ZId "42"); ResourceRecordSetsList (ZId "42")]
  ∧ sent st2
    = sent st1
      ++ [ResourceRecordSetsList (ZId "42"); ResourceRecordSetsList (ZId "42")].
Proof. repeat split; reflexivity. Qed.

(** C8. When the zone's name is absent from the inventory (already
    loaded, or loaded by this very call) and nothing is cached for it,
    [zone_records] returns the empty list instead of failing, without
    any record-set request, and [populate] succeeds leaving the zone as
    it was: zero records. *)
Theorem unknown_zone_reads_empty {W : Type} `{DnsClient W} {Zone Rec : Type}
    `{RecordModel Zone Rec} (zone : Zone) (lenient : bool)
    (st : provider W) (zs : gmap string zone_id) (st1 : provider W) :
  zones st = (Ok zs, st1) →
  zs !! zone_name zone = None →
  _zone_records st !! zone_name zone = None →
  zone_records zone st = (Ok [], st1)
  ∧ populate zone lenient st = ((Ok tt, zone), st1)
  ∧ rrset_reads (sent st1) = rrset_reads (sent st).
Proof.
  intros Hz Hl Hc.
  assert (zone_records zone st = (Ok [], st1)) as Hread.
  { unfold zone_records, zone_records_named, bind at 1, get. rewrite Hc.
    unfold zones_get. unfold bind at 1.
    rewrite (bind_run _ _ _ _ _ Hz). by rewrite Hl. }
  split; [exact Hread|]. split.
  - unfold populate. by rewrite Hread.
  - by eapply zones_sends_no_reads.
Qed.

Lemma unknown_zone_reads_empty_witness :
  zone_records Sample.missing Sample.fresh
  = (Ok [], Sample.loaded Sample.service)
  ∧ populate Sample.missing false Sample.fresh
    = ((Ok tt, Sample.missing), Sample.loaded Sample.service)
  ∧ rrset_reads (sent (Sample.loaded Sample.service))
    = rrset_reads (sent Sample.fresh).
Proof.
  apply (unknown_zone_reads_empty Sample.missing false Sample.fresh
           Sample.inventory (Sample.loaded Sample.service)); reflexivity.
Defined.

(** ** Applying a plan *)

Section Apply.
Context {W : Type} `{DnsClient W} {Zone Rec : Type} `{RecordModel Zone Rec}.
Implicit Types st : provider W.
Implicit Types p : plan Zone.

(** The first step of [_apply], once the inventory is loaded: a name
    absent from it is entered with [False], with an empty dict cached. *)
Lemma apply_enter_run st zs name :
  _zones st = Some zs →
  (match zs !! name with
   | None =>
       let* zone_id := zones_get name in
       let* zs := zones in
       set_zones (<[ name := zone_id ]> zs) ;;;
       let* st := get in
       set_zone_records (<[ name := SnapDict ]> (_zone_records st))
   | Some _ => ret tt
   end) st
  = (Ok tt,
     match zs !! name with
     | None =>
         with_zone_records (<[ name := SnapDict ]> (_zone_records st))
           (with_zones (<[ name := ZFalse ]> zs) st)
     | Some _ => st
     end).
Proof.
  intros Hz. destruct (zs !! name) eqn:Hl; [done|].
  rewrite (bind_run _ _ _ _ _ (zones_get_loaded _ _ name Hz)).
  rewrite (bind_run _ _ _ _ _ (zones_loaded _ _ Hz)).
  by rewrite Hl.
Qed.

Lemma changes_keep_zones zs (cs : list (change Zone)) st r st' :
  _zones st = Some zs →
  for_each apply_change cs st = (r, st') →
  _zones st' = Some zs.
Proof.
  apply (keeps_for_each (λ st, _zones st = Some zs) apply_change cs).
  intros c. apply apply_change_keeps_zones.
Qed.

Lemma changes_keep_stuck name (cs : list (change Zone)) st r st' :
  stuck name st →
  for_each apply_change cs st = (r, st') →
  stuck name st'.
Proof.
  apply (keeps_for_each (stuck name) apply_change cs).
  intros c. apply apply_change_keeps_stuck.
Qed.

(** What a completed [_apply] went through. *)
Lemma apply_Ok_inv p st st' :
  _apply p st = (Ok tt, st') →
  let name := zone_name (desired p) in
  ∃ zs0 st0 st3,
    zones st = (Ok zs0, st0)
    ∧ _zones st3
      = Some (match zs0 !! name with
              | None => <[ name := ZFalse ]> zs0
              | Some _ => zs0
              end)
    ∧ st' = with_zone_records (delete name (_zone_records st3)) st3.
Proof.
  unfold _apply. cbn zeta. intros Hrun.
  apply bind_Ok_inv in Hrun as (zs0 & st0 & Hzones & Hrun).
  apply bind_Ok_inv in Hrun as ([] & st2 & Henter & Hrun).
  apply bind_Ok_inv in Hrun as ([] & st3 & Hchanges & Hfin).
  assert (_zones st0 = Some zs0) as Hz0.
  { by eapply zones_run. }
  rewrite (apply_enter_run _ _ _ Hz0) in Henter. injection Henter as <-.
  exists zs0, st0, st3. split; [done|]. split.
  - eapply changes_keep_zones; [|exact Hchanges].
    by destruct (zs0 !! zone_name (desired p)).
  - by injection Hfin as <-.
Qed.

(** Whatever the outcome of [_apply], the inventory afterwards is the
    one loaded at the start, with [False] entered for a name it lacked. *)
Lemma apply_zones_after p st zs0 st0 r st' :
  zones st = (Ok zs0, st0) →
  _apply p st = (r, st') →
  _zones st'
  = Some (match zs0 !! zone_name (desired p) with
          | None => <[ zone_name (desired p) := ZFalse ]> zs0
          | Some _ => zs0
          end).
Proof.
  intros Hzones Hrun. unfold _apply in Hrun. cbn zeta in Hrun.
  assert (_zones st0 = Some zs0) as Hz0 by by eapply zones_run.
  rewrite (bind_run _ _ _ _ _ Hzones) in Hrun.
  rewrite (bind_run _ _ _ _ _ (apply_enter_run _ _ _ Hz0)) in Hrun.
  set (zs := match zs0 !! _ with None => _ | Some _ => zs0 end).
  set (st2 := match zs0 !! _ with None => _ | Some _ => st0 end) in Hrun.
  assert (_zones st2 = Some zs) as Hz2.
  { subst st2 zs. by destruct (zs0 !! zone_name (desired p)). }
  apply bind_inv in Hrun as [([] & st3 & Hch & Hfin)|(e & Hch & _)].
  - injection Hfin as _ <-. cbn. by eapply changes_keep_zones.
  - by eapply changes_keep_zones.
Qed.

(** In particular a name the inventory lacked is mapped to [False]
    after [_apply], even when a change raised. *)
Lemma apply_enters_unknown_zone p st zs0 st0 r st' :
  zones st = (Ok zs0, st0) →
  zs0 !! zone_name (desired p) = None →
  _apply p st = (r, st') →
  ∃ zs, _zones st' = Some zs ∧ zs !! zone_name (desired p) = Some ZFalse.
Proof.
  intros Hzones Hl Hrun. eexists. split.
  - by eapply apply_zones_after.
  - rewrite Hl. apply lookup_insert_eq.
Qed.

(** Any [_apply], whatever its outcome, leaves a stuck zone stuck. *)
Lemma apply_keeps_stuck name p : keeps (stuck (W := W) name) (_apply p).
Proof.
  intros st r st' Hs Hrun. unfold _apply in Hrun. cbn zeta in Hrun.
  pose proof Hs as (zs & z & Hz & Hl & Ht & Hc).
  rewrite (bind_run _ _ _ _ _ (zones_loaded _ _ Hz)) in Hrun.
  rewrite (bind_run _ _ _ _ _ (apply_enter_run _ _ _ Hz)) in Hrun.
  set (name' := zone_name (desired p)) in *.
  set (st2 := match zs !! name' with None => _ | Some _ => st end) in Hrun.
  assert (stuck name st2) as Hs2.
  { subst st2. destruct (zs !! name') eqn:Hl'; [done|].
    assert (name' ≠ name) as Hne by (intros ->; congruence).
    exists (<[ name' := ZFalse ]> zs), z. cbn.
    by rewrite !lookup_insert_ne. }
  apply bind_inv in Hrun as [([] & st3 & Hch & Hfin)|(e & Hch & _)].
  - assert (stuck name st3) as (zs3 & z3 & Hz3 & Hl3 & Ht3 & Hc3).
    { eapply changes_keep_stuck; [exact Hs2|exact Hch]. }
    injection Hfin as <- <-. exists zs3, z3. repeat split; try done.
    cbn. apply lookup_delete_None. by right.
  - eapply changes_keep_stuck; [exact Hs2|exact Hch].
Qed.

End Apply.

(** C6 (as amended). When [_apply] has processed all the changes of a
    plan for zone Z, nothing is cached for Z any more; the inventory is
    loaded, and if it maps Z to a usable identifier the next read of Z
    starts with a record-set request to the service; if it does not,
    the next read returns the empty list and sends nothing. *)
Theorem apply_drops_cache {W : Type} `{DnsClient W} {Zone Rec : Type}
    `{RecordModel Zone Rec} (p : plan Zone) (st st' : provider W) :
  _apply p st = (Ok tt, st') →
  _zone_records st' !! zone_name (desired p) = None
  ∧ ∃ zs,
      _zones st' = Some zs
      ∧ (truthy (default ZFalse (zs !! zone_name (desired p))) = true →
         ∃ r st'' more,
           zone_records (desired p) st' = (r, st'')
           ∧ sent st''
             = sent st'
               ++ ResourceRecordSetsList (default ZFalse (zs !! zone_name (desired p)))
                  :: more)
      ∧ (truthy (default ZFalse (zs !! zone_name (desired p))) = false →
         zone_records (desired p) st' = (Ok [], st')).
Proof.
  intros (zs0 & st0 & st3 & Hzones & Hz3 & ->)%apply_Ok_inv.
  split; [cbn; apply lookup_delete_eq|].
  eexists. split; [exact Hz3|].
  set (zs := match zs0 !! _ with None => _ | Some _ => zs0 end) in *.
  set (st' := with_zone_records _ st3).
  assert (_zones st' = Some zs) as Hz' by exact Hz3.
  assert (_zone_records st' !! zone_name (desired p) = None) as Hc'.
  { cbn. apply lookup_delete_eq. }
  split.
  - intros Ht. by apply zone_records_known_fetches.
  - intros Ht. unfold zone_records.
    rewrite (zone_records_named_loaded _ _ _ Hz'), Hc', Ht.
    by rewrite bool_decide_eq_false_2 by (by intros [? ?]).
Qed.

Lemma apply_drops_cache_witness :
  let p := {| desired := Sample.unit_tests; changes := [Create Sample.x_A] |} in
  let st' := snd (_apply p Sample.fresh) in
  _zone_records st' !! zone_name (desired p) = None
  ∧ ∃ zs,
      _zones st' = Some zs
      ∧ (truthy (default ZFalse (zs !! zone_name (desired p))) = true →
         ∃ r st'' more,
           zone_records (desired p) st' = (r, st'')
           ∧ sent st''
             = sent st'
               ++ ResourceRecordSetsList (default ZFalse (zs !! zone_name (desired p)))
                  :: more)
      ∧ (truthy (default ZFalse (zs !! zone_name (desired p))) = false →
         zone_records (desired p) st' = (Ok [], st')).
Proof.
  apply (apply_drops_cache
           {| desired := Sample.unit_tests; changes := [Create Sample.x_A] |}
           Sample.fresh).
  reflexivity.
Defined.

(** C6 as stated fails for a zone the inventory does not know: the
    plan (an empty one, or one addition that the service accepts) is
    applied, the cache entry is dropped, and the next read returns the
    empty list without any record-set request. *)
Lemma apply_then_read_without_fetch :
  let p := {| desired := Sample.missing; changes := [] |} in
  let q := {| desired := Sample.missing; changes := [Create Sample.new_A] |} in
  (∃ st',
     _apply p Sample.fresh = (Ok tt, st')
     ∧ _zone_records st' !! "missing.tests." = None
     ∧ zone_records Sample.missing st' = (Ok [], st')
     ∧ rrset_reads (sent (snd (zone_records Sample.missing st'))) = [])
  ∧ (∃ st',
       _apply q (Sample.init Sample.open_service) = (Ok tt, st')
       ∧ _zone_records st' !! "missing.tests." = None
       ∧ zone_records Sample.missing st' = (Ok [], st')
       ∧ rrset_reads (sent (snd (zone_records Sample.missing st'))) = []).
Proof.
  split; eexists; (split; [reflexivity|]); (split; [reflexivity|]);
    split; reflexivity.
Qed.

(** C10 (as amended). When [_apply] runs for a zone name the inventory
    did not hold, then whether it completes or raises the name is
    afterwards mapped to [False] in the loaded inventory, which later
    lookups answer without a request.  When it completes, nothing is
    cached for the zone either: the zone is stuck.  From any state in
    which it is stuck, a read or a [populate] of that zone returns no
    records and leaves the state, requests included, as it was; and
    every later read, [populate] or [_apply], of this or another zone
    and whatever its outcome, leaves the zone stuck. *)
Theorem apply_unknown_zone_sticks {W : Type} `{DnsClient W} {Zone Rec : Type}
    `{RecordModel Zone Rec} (p : plan Zone) (st : provider W)
    (zs0 : gmap string zone_id) (st0 : provider W)
    (r : result unit) (st' : provider W) :
  zones st = (Ok zs0, st0) →
  zs0 !! zone_name (desired p) = None →
  _apply p st = (r, st') →
  (∃ zs, _zones st' = Some zs
         ∧ zs !! zone_name (desired p) = Some ZFalse
         ∧ ∀ name, zones_get name st' = (Ok (default ZFalse (zs !! name)), st'))
  ∧ (r = Ok tt →
     stuck (zone_name (desired p)) st'
     ∧ ∀ st1 : provider W,
         stuck (zone_name (desired p)) st1 →
         (∀ (z : Zone) lenient,
            zone_name z = zone_name (desired p) →
            zone_records z st1 = (Ok [], st1)
            ∧ populate z lenient st1 = ((Ok tt, z), st1))
         ∧ (∀ (z : Zone) r st2,
              zone_records z st1 = (r, st2) → stuck (zone_name (desired p)) st2)
         ∧ (∀ (z : Zone) lenient r st2,
              populate z lenient st1 = (r, st2) →
              stuck (zone_name (desired p)) st2)
         ∧ (∀ (p' : plan Zone) r st2,
              _apply p' st1 = (r, st2) → stuck (zone_name (desired p)) st2)).
Proof.
  intros Hzones Hl Happly. split.
  { destruct (apply_enters_unknown_zone p st zs0 st0 r st' Hzones Hl Happly)
      as (zs & Hz & Hlook).
    exists zs. split; [exact Hz|]. split; [exact Hlook|].
    intros name. by apply zones_get_loaded. }
  intros ->.
  apply apply_Ok_inv in Happly as (zs0' & st0' & st3 & Hzones' & Hz3 & ->).
  rewrite Hzones in Hzones'. injection Hzones' as <- <-.
  rewrite Hl in Hz3.
  assert (stuck (zone_name (desired p))
            (with_zone_records
               (delete (zone_name (desired p)) (_zone_records st3)) st3)) as Hs.
  { exists (<[ zone_name (desired p) := ZFalse ]> zs0), ZFalse.
    split; [exact Hz3|]. split; [apply lookup_insert_eq|]. split; [done|].
    cbn. apply lookup_delete_eq. }
  split; [exact Hs|].
  intros st1 Hs1. split; [|split; [|split]].
  - intros z lenient Hname.
    assert (zone_records z st1 = (Ok [], st1)) as Hread.
    { unfold zone_records. rewrite Hname. by apply stuck_zone_records. }
    split; [exact Hread|]. unfold populate. by rewrite Hread.
  - intros z r st2. unfold zone_records. by apply zone_records_keeps_stuck.
  - intros z lenient r st2. unfold populate.
    destruct (zone_records z st1) as [[records|e] st2'] eqn:Hread;
      intros [= _ <-];
      by eapply (zone_records_keeps_stuck _ (zone_name z) st1).
  - intros p' r st2. by apply apply_keeps_stuck.
Qed.

Lemma apply_unknown_zone_sticks_witness :
  let p := {| desired := Sample.missing; changes := [] |} in
  let st' := snd (_apply p Sample.fresh) in
  (∃ zs, _zones st' = Some zs
         ∧ zs !! zone_name (desired p) = Some ZFalse
         ∧ ∀ name, zones_get name st' = (Ok (default ZFalse (zs !! name)), st'))
  ∧ (Ok tt = Ok tt →
     stuck (zone_name (desired p)) st'
     ∧ ∀ st1 : provider Sample.remote,
         stuck (zone_name (desired p)) st1 →
         (∀ (z : Sample.zone) lenient,
            zone_name z = zone_name (desired p) →
            zone_records z st1 = (Ok [], st1)
            ∧ populate z lenient st1 = ((Ok tt, z), st1))
         ∧ (∀ (z : Sample.zone) r st2,
              zone_records z st1 = (r, st2) → stuck (zone_name (desired p)) st2)
         ∧ (∀ (z : Sample.zone) lenient r st2,
              populate z lenient st1 = (r, st2) →
              stuck (zone_name (desired p)) st2)
         ∧ (∀ (p' : plan Sample.zone) r st2,
              _apply p' st1 = (r, st2) → stuck (zone_name (desired p)) st2)).
Proof.
  apply (apply_unknown_zone_sticks
           {| desired := Sample.missing; changes := [] |}
           Sample.fresh Sample.inventory (Sample.loaded Sample.service)
           (Ok tt));
    reflexivity.
Defined.

(** C10 as stated fails when the apply raises: on the sample service,
    which refuses a write to managed zone [False], the plan with one
    addition for the unknown zone raises, the empty dict cached for the
    zone stays, and the next read does not return the empty list: it
    sends a record-set listing request with [False] as the managed
    zone, and raises. *)
Lemma failed_apply_then_read_lists :
  let p := {| desired := Sample.missing; changes := [Create Sample.new_A] |} in
  let st' := snd (_apply p Sample.fresh) in
  fst (_apply p Sample.fresh) = Raise (HttpError "notFound")
  ∧ _zone_records st' !! "missing.tests." = Some SnapDict
  ∧ fst (zone_records Sample.missing st') = Raise (HttpError "notFound")
  ∧ fst (zone_records Sample.missing st') ≠ Ok []
  ∧ sent (snd (zone_records Sample.missing st'))
    = sent st' ++ [ResourceRecordSetsList ZFalse].
Proof. repeat split; try reflexivity. discriminate. Qed.

(** The run behind the witness: one addition is sent with [False] as
    the managed zone, and the next read sends nothing. *)
Example apply_unknown_zone_runs :
  let p := {| desired := Sample.missing; changes := [Create Sample.new_A] |} in
  let st' := snd (_apply p (Sample.init Sample.open_service)) in
  fst (_apply p (Sample.init Sample.open_service)) = Ok tt
  ∧ map is_change (sent st') = [false; false; true]
  ∧ zone_records Sample.missing st' = (Ok [], st').
Proof. repeat split; reflexivity. Qed.

(** ** Grouping and [populate] *)

Section Populate.
Context {Zone Rec : Type} `{RecordModel Zone Rec}.

Lemma dict_update_has {V} k (f : V → V) dflt d :
  ∃ v0, (k, f v0) ∈ dict_update k f dflt d.
Proof.
  induction d as [|[k' v] d [v0 IH]]; cbn [dict_update].
  - exists dflt. apply list_elem_of_here.
  - destruct (decide (k' = k)) as [->|Hne].
    + exists v. apply list_elem_of_here.
    + exists v0. by apply list_elem_of_further.
Qed.

Lemma dict_update_keeps {V} k (f : V → V) dflt d k' v :
  (k', v) ∈ d →
  (k', v) ∈ dict_update k f dflt d ∨ (k', f v) ∈ dict_update k f dflt d.
Proof.
  induction d as [|[k0 v0] d IH]; cbn [dict_update].
  - by intros ?%elem_of_nil.
  - intros [[= <- <-]|Hin]%elem_of_cons.
    + destruct (decide (k' = k)) as [->|Hne].
      * right. apply list_elem_of_here.
      * left. apply list_elem_of_here.
    + destruct (decide (k0 = k)) as [->|Hne].
      * left. by apply list_elem_of_further.
      * destruct (IH Hin); [left|right]; by apply list_elem_of_further.
Qed.

Lemma group_record_has zone values r :
  rr_type r ∈ SUPPORTS → grouped zone (group_record zone values r) r.
Proof.
  intros Hs. unfold grouped, group_record.
  destruct (decide (rr_type r ∈ SUPPORTS)); [|done].
  destruct (dict_update_has (hostname_from_fqdn zone (rr_name r))
              (dict_update (rr_type r) (λ l, l ++ [r]) []) [] values)
    as [types0 Hin].
  destruct (dict_update_has (rr_type r) (λ l, l ++ [r]) [] types0) as [l0 Hin'].
  eauto.
Qed.

Lemma group_record_keeps zone values r r' :
  grouped zone values r → grouped zone (group_record zone values r') r.
Proof.
  intros (types & records & Hin & Hin'). unfold grouped, group_record.
  destruct (decide (rr_type r' ∈ SUPPORTS)); [|by eauto].
  destruct (dict_update_keeps (hostname_from_fqdn zone (rr_name r'))
              (dict_update (rr_type r') (λ l, l ++ [r']) []) [] values _ _ Hin)
    as [Hsame|Hupd].
  - eauto.
  - destruct (dict_update_keeps (rr_type r') (λ l, l ++ [r']) [] types _ _ Hin');
      eauto.
Qed.

Lemma fold_group_keeps zone records values r :
  grouped zone values r →
  grouped zone (fold_left (group_record zone) records values) r.
Proof.
  revert values. induction records as [|r' records IH]; intros values Hg; [done|].
  cbn [fold_left]. by apply IH, group_record_keeps.
Qed.

(** Every listed record of a supported type ends up in a group. *)
Lemma fold_group_has zone records values r :
  r ∈ records → rr_type r ∈ SUPPORTS →
  grouped zone (fold_left (group_record zone) records values) r.
Proof.
  revert values. induction records as [|r' records IH]; intros values Hin Hs.
  - by apply elem_of_nil in Hin.
  - cbn [fold_left]. apply elem_of_cons in Hin as [->|Hin].
    + by apply fold_group_keeps, group_record_has.
    + by apply IH.
Qed.

(** Records of other types leave the groups as they are. *)
Lemma fold_group_filter zone records values :
  fold_left (group_record zone) records values
  = fold_left (group_record zone)
      (filter (λ r, rr_type r ∈ SUPPORTS) records) values.
Proof.
  revert values. induction records as [|r records IH]; intros values; [done|].
  cbn [fold_left]. rewrite IH. rewrite filter_cons.
  unfold group_record at 2.
  destruct (decide (rr_type r ∈ SUPPORTS)); [|done].
  cbn [fold_left]. unfold group_record at 3.
  by destruct (decide (rr_type r ∈ SUPPORTS)).
Qed.

Lemma keys_unique {V} (d : list (string * V)) k v1 v2 :
  NoDup d.*1 → (k, v1) ∈ d → (k, v2) ∈ d → v1 = v2.
Proof.
  induction d as [|[k0 v0] d IH]; [by intros _ ?%elem_of_nil|].
  cbn [fmap list_fmap fst]. intros [Hk0 Hnd]%NoDup_cons H1 H2.
  apply elem_of_cons in H1 as [[= -> ->]|H1];
    apply elem_of_cons in H2 as [[= <-]|H2].
  - done.
  - destruct Hk0. by apply (list_elem_of_fmap_2 fst _ (k0, v2)).
  - subst. destruct Hk0. by apply (list_elem_of_fmap_2 fst _ (k, v1)).
  - by apply IH.
Qed.

Lemma dict_update_keys {V} k (f : V → V) dflt (d : list (string * V)) :
  (dict_update k f dflt d).*1
  = if decide (k ∈ d.*1) then d.*1 else d.*1 ++ [k].
Proof.
  induction d as [|[k0 v0] d IH]; cbn [dict_update].
  - destruct (decide (k ∈ [].*1)) as [Hin|]; [by apply elem_of_nil in Hin|done].
  - destruct (decide (k0 = k)) as [->|Hne].
    + rewrite decide_True; [done|]. apply list_elem_of_here.
    + cbn [fmap list_fmap fst] in *. rewrite IH.
      destruct (decide (k ∈ d.*1)) as [Hin|Hout].
      * rewrite decide_True; [done|]. by apply list_elem_of_further.
      * rewrite decide_False; [done|].
        intros [?|?]%elem_of_cons; congruence.
Qed.

Lemma dict_update_NoDup {V} k (f : V → V) dflt (d : list (string * V)) :
  NoDup d.*1 → NoDup (dict_update k f dflt d).*1.
Proof.
  intros Hnd. rewrite dict_update_keys. case_decide; [done|].
  apply NoDup_app. split; [done|]. split; [|apply NoDup_singleton].
  intros x Hx ->%list_elem_of_singleton. done.
Qed.

(** Where the entries of an updated dictionary come from. *)
Lemma elem_of_dict_update_inv {V} k (f : V → V) dflt (d : list (string * V)) k' v' :
  NoDup d.*1 →
  (k', v') ∈ dict_update k f dflt d →
  (k' ≠ k ∧ (k', v') ∈ d)
  ∨ (k' = k ∧ ((∃ v, (k, v) ∈ d ∧ v' = f v) ∨ ((k ∉ d.*1) ∧ v' = f dflt))).
Proof.
  induction d as [|[k0 v0] d IH]; cbn [dict_update].
  - intros _ [= -> ->]%list_elem_of_singleton. right. split; [done|].
    right. split; [apply not_elem_of_nil|done].
  - cbn [fmap list_fmap fst]. intros [Hk0 Hnd]%NoDup_cons.
    destruct (decide (k0 = k)) as [->|Hne].
    + intros [[= -> ->]|Hin]%elem_of_cons.
      * right. split; [done|]. left. exists v0. split; [apply list_elem_of_here|done].
      * left. split; [|by apply list_elem_of_further].
        intros ->. destruct Hk0. by apply (list_elem_of_fmap_2 fst _ (k, v')).
    + intros [[= -> ->]|Hin]%elem_of_cons.
      * left. split; [done|apply list_elem_of_here].
      * destruct (IH Hnd Hin) as [[Hk Hd]|[-> [(v & Hd & ->)|[Hout ->]]]].
        -- left. split; [done|by apply list_elem_of_further].
        -- right. split; [done|]. left. exists v.
           split; [by apply list_elem_of_further|done].
        -- right. split; [done|]. right. split; [|done].
           intros [?|?]%elem_of_cons; congruence.
Qed.

Lemma group_of_snoc zone name t seen r :
  group_of zone name t (seen ++ [r])
  = group_of zone name t seen
    ++ (if decide (hostname_from_fqdn zone (rr_name r) = name
                   ∧ rr_type r = t ∧ rr_type r ∈ SUPPORTS)
        then [r] else []).
Proof.
  unfold group_of. rewrite filter_app, filter_cons.
  by destruct (decide _).
Qed.

Lemma group_of_empty zone name t seen :
  (∀ r, r ∈ seen → hostname_from_fqdn zone (rr_name r) = name →
        rr_type r = t → rr_type r ∈ SUPPORTS → False) →
  group_of zone name t seen = [].
Proof.
  intros Hnone. unfold group_of.
  induction seen as [|r seen IH]; [done|].
  rewrite filter_cons. destruct (decide _) as [(Hn & Ht & Hs)|_].
  - destruct (Hnone r); [apply list_elem_of_here|done..].
  - apply IH. intros r' Hr'. apply Hnone. by apply list_elem_of_further.
Qed.

(** One step of the grouping loop. *)
Lemma group_record_ok zone values seen r :
  groups_ok zone values seen →
  groups_ok zone (group_record zone values r) (seen ++ [r]).
Proof.
  intros (Hnd & Hgroups & Hseen).
  assert (∀ r', r' ∈ seen ++ [r] → rr_type r' ∈ SUPPORTS →
                grouped zone (group_record zone values r) r') as Hseen'.
  { intros r' [Hin|Heq%list_elem_of_singleton]%elem_of_app Hs.
    - by apply group_record_keeps, Hseen.
    - subst r'. by apply group_record_has. }
  split; [|split; [|exact Hseen']].
  { unfold group_record. case_decide; [|done]. by apply dict_update_NoDup. }
  intros name types Hin. unfold group_record in Hin.
  destruct (decide (rr_type r ∈ SUPPORTS)) as [Hs|Hs].
  2:{ destruct (Hgroups name types Hin) as [Hndt Heq]. split; [done|].
      intros t l Hl. rewrite group_of_snoc, (Heq t l Hl).
      rewrite decide_False; [by rewrite app_nil_r|]. by intros (_ & _ & ?). }
  set (n := hostname_from_fqdn zone (rr_name r)) in *.
  apply elem_of_dict_update_inv in Hin
    as [[Hne Hin]|[-> [(types0 & Hin & ->)|[Hout ->]]]]; [| | |done].
  - destruct (Hgroups name types Hin) as [Hndt Heq]. split; [done|].
    intros t l Hl. rewrite group_of_snoc, (Heq t l Hl).
    rewrite decide_False; [by rewrite app_nil_r|]. by intros (? & _ & _).
  - destruct (Hgroups n types0 Hin) as [Hndt Heq].
    split; [by apply dict_update_NoDup|].
    intros t l Hl. rewrite group_of_snoc.
    apply elem_of_dict_update_inv in Hl
      as [[Hne Hl]|[-> [(l0 & Hl & ->)|[Hout ->]]]]; [| | |done].
    + rewrite (Heq t l Hl).
      rewrite decide_False; [by rewrite app_nil_r|]. by intros (_ & ? & _).
    + rewrite (Heq _ l0 Hl). by rewrite decide_True.
    + rewrite decide_True by done. rewrite group_of_empty; [done|].
      intros r' Hr' Hn' Ht' Hs'.
      destruct (Hseen r' Hr' Hs') as (types1 & l1 & Hin1 & Hl1).
      rewrite Hn' in Hin1. rewrite Ht' in Hl1.
      rewrite (keys_unique _ _ _ _ Hnd Hin1 Hin) in Hl1.
      destruct Hout. by apply (list_elem_of_fmap_2 fst _ (rr_type r, l1)).
  - split.
    { apply (dict_update_NoDup _ _ _ []). apply NoDup_nil_2. }
    intros t l [= -> ->]%list_elem_of_singleton.
    rewrite group_of_snoc, decide_True by done.
    rewrite group_of_empty; [done|].
    intros r' Hr' Hn' Ht' Hs'.
    destruct (Hseen r' Hr' Hs') as (types1 & l1 & Hin1 & Hl1).
    rewrite Hn' in Hin1.
    destruct Hout. by apply (list_elem_of_fmap_2 fst _ (n, types1)).
Qed.

Lemma fold_group_ok zone records values seen :
  groups_ok zone values seen →
  groups_ok zone (fold_left (group_record zone) records values) (seen ++ records).
Proof.
  revert values seen. induction records as [|r records IH]; intros values seen Hok.
  - by rewrite app_nil_r.
  - cbn [fold_left]. rewrite (assoc_L (++) seen [r] records : seen ++ r :: records = _).
    by apply IH, group_record_ok.
Qed.

(** The groups [populate] hands to the translators: each is the part of
    the listing with that host name and type, in the order listed. *)
Lemma groups_in_listing_order zone records name types t l :
  (name, types) ∈ fold_left (group_record zone) records [] →
  (t, l) ∈ types →
  l = group_of zone name t records.
Proof.
  intros Hin Hl.
  destruct (fold_group_ok zone records [] []) as (_ & Hgroups & _).
  - split; [apply NoDup_nil_2|]. split.
    + by intros ? ? ?%elem_of_nil.
    + by intros ? ?%elem_of_nil.
  - by apply (Hgroups name types Hin).
Qed.

Lemma add_group_missing lenient name _type records zone e :
  getattr_data_for _type = Raise e →
  add_group lenient name _type records zone = (Raise e, zone).
Proof. intros Hg. unfold add_group, bind, lift. by rewrite Hg. Qed.

(** [populate] fails when a group has no translator. *)
Lemma populate_records_fails lenient records r e zone :
  r ∈ records → rr_type r ∈ SUPPORTS →
  getattr_data_for (rr_type r) = Raise e →
  ∃ e' zone', populate_records lenient records zone = (Raise e', zone').
Proof.
  intros Hin Hs Hg. unfold populate_records.
  destruct records as [|r0 rs] eqn:E; [by apply elem_of_nil in Hin|].
  rewrite <- E in *. clear E r0 rs.
  unfold bind at 1, get.
  destruct (fold_group_has zone records [] r Hin Hs)
    as (types & group & Hname & Htype).
  eapply (for_each_fails _ _ _ Hname). intros z.
  eapply (for_each_fails _ _ _ Htype). intros z'.
  exists e, z'. by apply add_group_missing.
Qed.

(** Records of unsupported types have no part in [populate]. *)
Lemma populate_records_filter lenient records zone :
  populate_records lenient records zone
  = populate_records lenient (filter (λ r, rr_type r ∈ SUPPORTS) records) zone.
Proof.
  unfold populate_records.
  destruct records as [|r0 rs] eqn:E; [done|]. rewrite <- E. clear E r0 rs.
  unfold bind at 1, get. rewrite fold_group_filter.
  by destruct (filter _ records).
Qed.

End Populate.

(** C4 (as amended). For a group of wire entries of type A, AAAA, TXT
    or SPF, each carrying at least one raw string, the inbound
    translator succeeds
    and the values of the neutral record follow the wire entries
    position by position: value [i] is the (for TXT, escaped) first raw
    string of entry [i], nothing is re-sorted; when every entry carries
    exactly one raw string, the values are the raw strings of the
    entries, concatenated in the order listed.  And the group
    [populate] forms for a host name and type is the matching part of
    the listing, in the order the service returned it. *)
Theorem inbound_order_preserved {Zone Rec : Type} `{RecordModel Zone Rec}
    (t : string) (records : list rrset) :
  t ∈ ["A"; "AAAA"; "TXT"; "SPF"] →
  records ≠ [] →
  Forall (λ r, rr_rrdatas r ≠ []) records →
  (∃ data_for d vs,
     getattr_data_for t = Ok data_for
     ∧ data_for t records = Ok d
     ∧ d_payload d = Values vs
     ∧ length vs = length records
     ∧ (∀ i r, records !! i = Some r →
          ∃ s, head (rr_rrdatas r) = Some s ∧ vs !! i = Some (inbound_value t s))
     ∧ (Forall (λ r, length (rr_rrdatas r) = 1%nat) records →
          vs = map (inbound_value t) (concat (map rr_rrdatas records))))
  ∧ (∀ (zone : Zone) listing name types,
       (name, types) ∈ fold_left (group_record zone) listing [] →
       (t, records) ∈ types →
       records = group_of zone name t listing).
Proof.
  intros Ht Hne Hrr. split; [|intros zone listing name types;
                               apply groups_in_listing_order].
  destruct records as [|r0 rs] eqn:E; [done|]. rewrite <- E in *.
  assert (first_record records = Ok r0) as H0 by by subst.
  eexists _, _, _. split; [by apply getattr_data_for_multi|].
  split; [by apply data_for_multi_values|].
  split; [reflexivity|].
  split; [by rewrite length_map|].
  split.
  - intros i r Hi. exists (head_rrdata r). split.
    + assert (rr_rrdatas r ≠ []) as Hr.
      { eapply Forall_forall in Hrr; [exact Hrr|].
        by eapply list_elem_of_lookup_2. }
      unfold head_rrdata. by destruct (rr_rrdatas r).
    + by rewrite list_lookup_fmap, Hi.
  - intros Hone. rewrite concat_singletons by done.
    by rewrite <- list_fmap_compose.
Qed.

Lemma inbound_order_preserved_witness :
  let t := "TXT" in
  let records := [Sample.rr "t.unit.tests." "TXT" ["b;1"; "unused"];
                  Sample.rr "t.unit.tests." "TXT" ["a;2"]] in
  (∃ data_for d vs,
     getattr_data_for t = Ok data_for
     ∧ data_for t records = Ok d
     ∧ d_payload d = Values vs
     ∧ length vs = length records
     ∧ (∀ i r, records !! i = Some r →
          ∃ s, head (rr_rrdatas r) = Some s ∧ vs !! i = Some (inbound_value t s))
     ∧ (Forall (λ r, length (rr_rrdatas r) = 1%nat) records →
          vs = map (inbound_value t) (concat (map rr_rrdatas records))))
  ∧ (∀ (zone : Sample.zone) listing name types,
       (name, types) ∈ fold_left (group_record zone) listing [] →
       (t, records) ∈ types →
       records = group_of zone name t listing).
Proof.
  apply (inbound_order_preserved (Zone := Sample.zone)).
  - do 2 right. left.
  - done.
  - repeat constructor; done.
Defined.

(** C4 as stated fails for a wire entry with more than one raw string:
    an A entry listed with two addresses satisfies everything asked of
    a group, yet the translator keeps only the first, so the values are
    not the raw strings of the entries. *)
Lemma two_rrdatas_one_value :
  let records := [Sample.rr "x.unit.tests." "A" ["1.2.3.4"; "5.6.7.8"]] in
  getattr_data_for "A" = Ok _data_for_A
  ∧ _data_for_A "A" records
    = Ok {| d_ttl := 300; d_type := "A"; d_payload := Values [VStr "1.2.3.4"] |}
  ∧ [VStr "1.2.3.4"] ≠ map VStr (concat (map rr_rrdatas records)).
Proof. repeat split; try reflexivity. discriminate. Qed.

(** What the inbound TXT translator computes on a two-entry group. *)
Example data_for_TXT_runs :
  _data_for_TXT "TXT"
    [Sample.rr "t.unit.tests." "TXT" ["b;1"; "unused"];
     Sample.rr "t.unit.tests." "TXT" ["a;2"]]
  = Ok {| d_ttl := 300; d_type := "TXT";
          d_payload := Values [VStr "b\;1"; VStr "a\;2"] |}.
Proof. reflexivity. Qed.

(** The groups of a listing that interleaves two host names. *)
Example grouping_runs :
  fold_left (group_record Sample.unit_tests)
    [Sample.rr "b.unit.tests." "A" ["2.2.2.2"];
     Sample.rr "a.unit.tests." "A" ["1.1.1.1"];
     Sample.rr "b.unit.tests." "SOA" ["ignored"];
     Sample.rr "b.unit.tests." "A" ["1.1.1.1"]] []
  = [("b", [("A", [Sample.rr "b.unit.tests." "A" ["2.2.2.2"];
                   Sample.rr "b.unit.tests." "A" ["1.1.1.1"]])]);
     ("a", [("A", [Sample.rr "a.unit.tests." "A" ["1.1.1.1"]])])].
Proof. reflexivity. Qed.

(** C7. When the listing of a zone contains a record of type CAA or
    PTR (supported, but without an inbound translator), [populate]
    does not return normally: it raises, and nothing is dropped
    silently. *)
Theorem populate_missing_translator {W : Type} `{DnsClient W} {Zone Rec : Type}
    `{RecordModel Zone Rec} (zone : Zone) (lenient : bool)
    (st st' : provider W) (records : list rrset) (r : rrset) :
  zone_records zone st = (Ok records, st') →
  r ∈ records →
  rr_type r = "CAA" ∨ rr_type r = "PTR" →
  ∃ e zone', populate zone lenient st = ((Raise e, zone'), st').
Proof.
  intros Hread Hin Ht. unfold populate. rewrite Hread.
  destruct (populate_records_fails lenient records r
              (AttributeError ("_data_for_" +:+ rr_type r)) zone Hin)
    as (e & zone' & Hfail).
  - destruct Ht as [-> | ->]; compute_done.
  - by destruct Ht as [-> | ->].
  - exists e, zone'. by rewrite Hfail.
Qed.

Lemma populate_missing_translator_witness :
  ∃ e zone',
    populate Sample.unit_tests false (Sample.init Sample.caa_service)
    = ((Raise e, zone'),
       snd (zone_records Sample.unit_tests (Sample.init Sample.caa_service))).
Proof.
  apply (populate_missing_translator Sample.unit_tests false
           (Sample.init Sample.caa_service) _ Sample.caa_rrsets
           (Sample.rr "unit.tests." "CAA" ["0 issue ca.unit.tests"])).
  - reflexivity.
  - apply list_elem_of_further, list_elem_of_here.
  - left. reflexivity.
Defined.

(** On that listing the error is the missing attribute, raised after
    the NS group was added. *)
Example populate_CAA_runs :
  fst (populate Sample.unit_tests false (Sample.init Sample.caa_service))
  = (Raise (AttributeError "_data_for_CAA"),
     {| Sample.name := "unit.tests.";
        Sample.records :=
          [("", {| d_ttl := 300; d_type := "NS";
                   d_payload := Values [VStr "ns1.unit.tests."] |})] |}).
Proof. reflexivity. Qed.

(** C9. Whatever the listing, [populate] does exactly what it would do
    on the listing without its records of unsupported types: they are
    in no group, reach no translator and no [Record.new], and cannot
    make [populate] fail; a listing of unsupported records only leaves
    the zone as it was. *)
Theorem populate_drops_unsupported {W : Type} `{DnsClient W} {Zone Rec : Type}
    `{RecordModel Zone Rec} (zone : Zone) (lenient : bool)
    (st st' : provider W) (records : list rrset) :
  zone_records zone st = (Ok records, st') →
  populate zone lenient st
  = (populate_records lenient
       (filter (λ r, rr_type r ∈ SUPPORTS) records) zone, st')
  ∧ (∀ l1 u l2,
       records = l1 ++ u :: l2 → rr_type u ∉ SUPPORTS →
       populate zone lenient st = (populate_records lenient (l1 ++ l2) zone, st'))
  ∧ (Forall (λ r, rr_type r ∉ SUPPORTS) records →
     populate zone lenient st = ((Ok tt, zone), st')).
Proof.
  intros Hread. unfold populate. rewrite Hread.
  split; [by rewrite populate_records_filter|]. split.
  - intros l1 u l2 -> Hu.
    rewrite populate_records_filter, (populate_records_filter _ (l1 ++ l2)).
    rewrite !filter_app, filter_cons.
    destruct (decide (rr_type u ∈ SUPPORTS)); [by destruct Hu|done].
  - intros Hall. rewrite populate_records_filter.
    assert (filter (λ r, rr_type r ∈ SUPPORTS) records = []) as ->; [|done].
    clear Hread. induction Hall as [|r rs Hr _ IH]; [done|].
    rewrite filter_cons.
    destruct (decide (rr_type r ∈ SUPPORTS)); [by destruct Hr|exact IH].
Qed.

Lemma populate_drops_unsupported_witness :
  let st' := snd (zone_records Sample.unit_tests Sample.fresh) in
  populate Sample.unit_tests false Sample.fresh
  = (populate_records false
       (filter (λ r, rr_type r ∈ SUPPORTS) Sample.unit_tests_rrsets)
       Sample.unit_tests, st')
  ∧ (∀ l1 u l2,
       Sample.unit_tests_rrsets = l1 ++ u :: l2 → rr_type u ∉ SUPPORTS →
       populate Sample.unit_tests false Sample.fresh
       = (populate_records false (l1 ++ l2) Sample.unit_tests, st'))
  ∧ (Forall (λ r, rr_type r ∉ SUPPORTS) Sample.unit_tests_rrsets →
     populate Sample.unit_tests false Sample.fresh
     = ((Ok tt, Sample.unit_tests), st')).
Proof.
  apply (populate_drops_unsupported Sample.unit_tests false Sample.fresh).
  reflexivity.
Defined.

(** On the sample zone the SOA record set is dropped and the two
    others become records. *)
Example populate_runs :
  fst (populate Sample.unit_tests false Sample.fresh)
  = (Ok tt,
     {| Sample.name := "unit.tests.";
        Sample.records :=
          [("", {| d_ttl := 300; d_type := "NS";
                   d_payload := Values [VStr "ns1.unit.tests."] |});
           ("x", {| d_ttl := 300; d_type := "A";
                    d_payload := Values [VStr "1.2.3.4"] |})] |}).
Proof. reflexivity. Qed.

(** ** The write requests of a change *)

Section Writes.
Context {W : Type} `{DnsClient W} {Zone Rec : Type} `{RecordModel Zone Rec}.
Implicit Types st : provider W.

Lemma writes_app rs1 rs2 : writes (rs1 ++ rs2) = writes rs1 ++ writes rs2.
Proof. apply filter_app. Qed.

Lemma writes_changes {A} (mk : A → request) xs :
  (∀ x, is_change (mk x) = true) → writes (map mk xs) = map mk xs.
Proof.
  intros Hmk. induction xs as [|x xs IH]; [done|].
  cbn [map]. unfold writes in *. rewrite filter_cons.
  destruct (decide (is_change (mk x) = true)); [|by rewrite Hmk in *].
  by rewrite IH.
Qed.

(** A fragment loop that completes has sent one request per fragment,
    in the order the generator produced them. *)
Lemma for_gen_sends (mk : fragment → change_body) zone_id g st st' :
  for_gen (λ content, changes_create_execute zone_id (mk content)) g st
  = (Ok tt, st') →
  exhausts g = true
  ∧ sent st' = sent st ++ map (λ c, ChangesCreate zone_id (mk c)) (yielded g).
Proof.
  revert st. induction g as [|content g IH|e]; intros st; cbn [for_gen].
  - intros [= <-]. by rewrite app_nil_r.
  - intros ([] & st1 & Hsend & Hrest)%bind_Ok_inv.
    rewrite changes_create_execute_run in Hsend.
    destruct (changes_create _ _ _) as [w|]; [|done].
    injection Hsend as <-.
    destruct (IH _ Hrest) as [He Hs]. split; [exact He|].
    rewrite Hs. cbn. by rewrite <- app_assoc.
  - done.
Qed.

(** [_apply_Create] sends one addition per fragment. *)
Lemma apply_Create_sends (new : NeutralRecord Zone) contents_for st st' :
  getattr_contents_for (rec_type new) = Ok contents_for →
  _apply_Create new st = (Ok tt, st') →
  ∃ zone_id st0,
    zones_getitem (zone_name (rec_zone new)) st = (Ok zone_id, st0)
    ∧ sent st' = sent st0 ++ map (addition new zone_id) (yielded (contents_for new)).
Proof.
  intros Hattr. unfold _apply_Create.
  intros (zone_id & st0 & Hid & Hrun)%bind_Ok_inv.
  rewrite Hattr in Hrun. unfold bind at 1, lift in Hrun.
  exists zone_id, st0. split; [exact Hid|].
  by apply (for_gen_sends
              (λ content, {| kind := "dns#change";
                             additions := Some [content_update new content];
                             deletions := None |})) in Hrun as [_ ->].
Qed.

Lemma for_each_sends {A} (body : A → M (provider W) unit) (rs : list request)
    xs st st' :
  (∀ x st1 st2, body x st1 = (Ok tt, st2) → sent st2 = sent st1 ++ rs) →
  for_each body xs st = (Ok tt, st') →
  sent st' = sent st ++ concat (replicate (length xs) rs).
Proof.
  intros Hbody. revert st. induction xs as [|x xs IH]; intros st; cbn [for_each].
  - intros [= <-]. by rewrite app_nil_r.
  - intros ([] & st1 & Hx & Hrest)%bind_Ok_inv.
    rewrite (IH _ Hrest), (Hbody _ _ _ Hx). cbn. by rewrite <- app_assoc.
Qed.

(** [_apply_Delete] sends the deletions of all the fragments once for
    every record set listed for the zone. *)
Lemma apply_Delete_sends (existing : NeutralRecord Zone) contents_for st st' :
  getattr_contents_for (rec_type existing) = Ok contents_for →
  _apply_Delete existing st = (Ok tt, st') →
  ∃ zone_id st0 records st1,
    zones_getitem (zone_name (rec_zone existing)) st = (Ok zone_id, st0)
    ∧ zone_records (rec_zone existing) st0 = (Ok records, st1)
    ∧ sent st'
      = sent st1
        ++ concat (replicate (length records)
                     (map (deletion existing zone_id)
                        (yielded (contents_for existing))))
    ∧ length (writes (sent st'))
      = (length (writes (sent st1))
         + length records * length (yielded (contents_for existing)))%nat.
Proof.
  intros Hattr. unfold _apply_Delete.
  intros (zone_id & st0 & Hid & Hrun)%bind_Ok_inv.
  apply bind_Ok_inv in Hrun as (records & st1 & Hread & Hrun).
  exists zone_id, st0, records, st1. split; [exact Hid|]. split; [exact Hread|].
  assert (sent st'
          = sent st1
            ++ concat (replicate (length records)
                         (map (deletion existing zone_id)
                            (yielded (contents_for existing))))) as Hsent.
  { eapply for_each_sends; [|exact Hrun].
    intros record sta stb Hbody. cbn beta in Hbody.
    rewrite Hattr in Hbody. unfold bind at 1, lift in Hbody.
    by apply (for_gen_sends
                (λ content, {| kind := "dns#change";
                               additions := None;
                               deletions := Some [content_update existing content] |}))
      in Hbody as [_ ->]. }
  split; [exact Hsent|].
  rewrite Hsent, writes_app, length_app. f_equal. clear.
  induction (length records) as [|n IH]; [done|].
  cbn [replicate concat]. rewrite writes_app, length_app, IH.
  rewrite writes_changes by done. by rewrite length_map.
Qed.

End Writes.

(** C1, on the code: deleting an A record with one value from a zone
    whose listing has three record sets sends three write requests,
    each declaring that one deletion, where the outbound translator
    produced a single fragment. *)
Lemma apply_Delete_repeats_fragments :
  let st' := snd (_apply_Delete Sample.x_A Sample.fresh) in
  fst (_apply_Delete Sample.x_A Sample.fresh) = Ok tt
  ∧ length (yielded (_contents_for_A Sample.x_A)) = 1%nat
  ∧ length (writes (sent st')) = 3%nat
  ∧ forallb one_deletion (writes (sent st')) = true.
Proof. repeat split; reflexivity. Qed.

(** * Further properties of the provider *)

(** ** Paginated listings *)

Section Listings.
Context {W : Type} `{DnsClient W}.
Implicit Types st : provider W.

Lemma listing_result_items {A B} (step : B → A → B) acc (pages : listing A) items :
  listing_items pages = Some items →
  listing_result step acc pages = Ok (fold_left step items acc).
Proof.
  revert acc items. induction pages as [e|its|its next IH]; intros acc items.
  - done.
  - by intros [= <-].
  - cbn [listing_items listing_result].
    destruct (listing_items next) as [more|]; [|done].
    intros [= <-]. rewrite fold_left_app. by apply IH.
Qed.

Lemma listing_result_fails {A B} (step : B → A → B) acc (pages : listing A) :
  listing_items pages = None →
  ∃ e, listing_result step acc pages = Raise e.
Proof.
  revert acc. induction pages as [e|its|its next IH]; intros acc.
  - by exists e.
  - done.
  - cbn [listing_items listing_result].
    destruct (listing_items next) as [more|]; [done|].
    intros _. by apply IH.
Qed.

Lemma fold_left_snoc {A} (items acc : list A) :
  fold_left (λ records r, records ++ [r]) items acc = acc ++ items.
Proof.
  revert acc. induction items as [|x items IH]; intros acc; cbn [fold_left].
  - by rewrite app_nil_r.
  - by rewrite IH, <- app_assoc.
Qed.

Lemma zones_fold_lookup (items : list managed_zone) name :
  fold_left (λ (zs : gmap string zone_id) mz,
               <[ PyStr.format (mz_dnsName mz) := ZId (mz_id mz) ]> zs) items ∅
  !! name
  = listed_id items name.
Proof.
  unfold listed_id, PyStr.format.
  induction items as [|mz items IH] using rev_ind; [done|].
  rewrite fold_left_app, filter_app, filter_cons, filter_nil. cbn [fold_left].
  destruct (decide (mz_dnsName mz = name)) as [<-|Hne].
  - by rewrite lookup_insert_eq, last_snoc.
  - by rewrite lookup_insert_ne, app_nil_r.
Qed.

End Listings.

(** X1. On first use the inventory is read to the end: when no page of
    the managed-zone listing fails, [zones] executes one request per
    page, stores the mapping it returns, and that mapping gives every
    listed zone name the identifier of the last zone listed under this
    name, and nothing to any other name. *)
Theorem zones_lists_all_pages {W : Type} `{DnsClient W} (st : provider W)
    (items : list managed_zone) :
  _zones st = None →
  listing_items (managedZones_list (client st)) = Some items →
  ∃ zs,
    zones st
    = (Ok zs,
       with_zones zs
         (add_sent (replicate (listing_requests (managedZones_list (client st)))
                      ManagedZonesList) st))
    ∧ ∀ name, zs !! name = listed_id items name.
Proof.
  intros Hz Hitems. eexists. split.
  - unfold zones, bind at 1, get. rewrite Hz. unfold bind at 1.
    rewrite while_request_run, (listing_result_items _ _ _ _ Hitems).
    reflexivity.
  - intros name. apply zones_fold_lookup.
Qed.

Lemma zones_lists_all_pages_witness :
  ∃ zs,
    zones Sample.fresh
    = (Ok zs,
       with_zones zs
         (add_sent (replicate
                      (listing_requests (managedZones_list (client Sample.fresh)))
                      ManagedZonesList) Sample.fresh))
    ∧ ∀ name,
        zs !! name
        = listed_id [ {| mz_dnsName := "other.tests."; mz_id := "11" |};
                      {| mz_dnsName := "unit.tests."; mz_id := "42" |} ] name.
Proof.
  apply (zones_lists_all_pages Sample.fresh); reflexivity.
Defined.

(** X2. The inventory is read once: after a [zones] that returned, every
    later [zones], and every lookup in it, returns from the stored
    mapping without a request and leaves the state as it is. *)
Theorem zones_read_once {W : Type} `{DnsClient W} (st st1 : provider W)
    (zs : gmap string zone_id) :
  zones st = (Ok zs, st1) →
  zones st1 = (Ok zs, st1)
  ∧ (∀ name, zones_get name st1 = (Ok (default ZFalse (zs !! name)), st1))
  ∧ (∀ name z, zs !! name = Some z → zones_getitem name st1 = (Ok z, st1))
  ∧ (∀ name, zs !! name = None →
       zones_getitem name st1 = (Raise (KeyError name), st1)).
Proof.
  intros Hrun.
  assert (_zones st1 = Some zs) as Hz by by eapply zones_run.
  split; [by apply zones_loaded|]. split; [intros; by apply zones_get_loaded|].
  split; intros name.
  - intros z Hl. by rewrite (zones_getitem_loaded _ _ _ Hz), Hl.
  - intros Hl. by rewrite (zones_getitem_loaded _ _ _ Hz), Hl.
Qed.

Lemma zones_read_once_witness :
  let st1 := Sample.loaded Sample.service in
  let zs := Sample.inventory in
  zones st1 = (Ok zs, st1)
  ∧ (∀ name, zones_get name st1 = (Ok (default ZFalse (zs !! name)), st1))
  ∧ (∀ name z, zs !! name = Some z → zones_getitem name st1 = (Ok z, st1))
  ∧ (∀ name, zs !! name = None →
       zones_getitem name st1 = (Raise (KeyError name), st1)).
Proof.
  apply (zones_read_once Sample.fresh). reflexivity.
Defined.

(** X3. A failing page is not remembered: when a page of the
    managed-zone listing fails, [zones] raises after the requests up to
    that page, stores no mapping and changes nothing else, so the next
    call lists the zones again. *)
Theorem zones_failure_not_stored {W : Type} `{DnsClient W} (st : provider W) :
  _zones st = None →
  listing_items (managedZones_list (client st)) = None →
  ∃ e st',
    zones st = (Raise e, st')
    ∧ st' = add_sent (replicate (listing_requests (managedZones_list (client st)))
                        ManagedZonesList) st
    ∧ _zones st' = None
    ∧ ∃ r st'' n, zones st' = (r, st'')
                  ∧ sent st'' = sent st' ++ replicate (S n) ManagedZonesList.
Proof.
  intros Hz Hitems.
  destruct (listing_result_fails
              (λ (zs : gmap string zone_id) mz,
                 <[ PyStr.format (mz_dnsName mz) := ZId (mz_id mz) ]> zs)
              ∅ _ Hitems) as [e He].
  assert (∀ st0 : provider W,
            _zones st0 = None → client st0 = client st →
            zones st0
            = (Raise e,
               add_sent (replicate (listing_requests (managedZones_list (client st)))
                           ManagedZonesList) st0)) as Hrun.
  { intros st0 Hz0 Hc. unfold zones, bind at 1, get. rewrite Hz0. unfold bind at 1.
    by rewrite while_request_run, Hc, He. }
  eexists e, _. split; [by apply Hrun|]. split; [done|]. split; [exact Hz|].
  destruct (listing_requests_pos (managedZones_list (client st))) as [n Hn].
  eexists _, _, n. split; [by apply Hrun|]. by rewrite Hn.
Qed.

Lemma zones_failure_not_stored_witness :
  let st := Sample.init Sample.no_zones_service in
  ∃ e st',
    zones st = (Raise e, st')
    ∧ st' = add_sent (replicate (listing_requests (managedZones_list (client st)))
                        ManagedZonesList) st
    ∧ _zones st' = None
    ∧ ∃ r st'' n, zones st' = (r, st'')
                  ∧ sent st'' = sent st' ++ replicate (S n) ManagedZonesList.
Proof.
  apply (zones_failure_not_stored (Sample.init Sample.no_zones_service));
    reflexivity.
Defined.

(** ** Reading the record sets of a zone *)

Section ReadFacts.
Context {W : Type} `{DnsClient W}.
Implicit Types st : provider W.

Lemma writes_replicate_reads n (z : zone_id) :
  writes (replicate n (ResourceRecordSetsList z)) = [].
Proof. induction n as [|n IH]; [done|]. exact IH. Qed.

Lemma writes_replicate_zones n : writes (replicate n ManagedZonesList) = [].
Proof. induction n as [|n IH]; [done|]. exact IH. Qed.

Lemma read_of_refl name st : read_of name st st.
Proof. by repeat split. Qed.

Lemma read_of_trans name st1 st2 st3 :
  read_of name st1 st2 → read_of name st2 st3 → read_of name st1 st3.
Proof.
  intros (Hc1 & Hw1 & Hn1 & Hz1) (Hc2 & Hw2 & Hn2 & Hz2).
  split; [congruence|]. split; [congruence|]. split.
  - intros n Hn. by rewrite Hn2, Hn1.
  - intros zs Hzs. by apply Hz2, Hz1.
Qed.

Lemma zones_read_of name st r st' : zones st = (r, st') → read_of name st st'.
Proof.
  intros Hrun. destruct (_zones st) as [zs|] eqn:Hz.
  - apply zones_run in Hrun as (_ & _ & Hl).
    destruct (Hl zs Hz) as [_ ->]. apply read_of_refl.
  - apply zones_run in Hrun as ((n & [->|[zs ->]]) & _ & _);
      (split; [done|]); (split; [|split; [done|intros zs'; by rewrite Hz]]);
      cbn; by rewrite writes_app, writes_replicate_zones, app_nil_r.
Qed.

Lemma fetch_read_of name st zs r st' :
  _zones st = Some zs →
  fetch_zone_records name st = (r, st') →
  read_of name st st'.
Proof.
  intros Hz. rewrite (fetch_zone_records_loaded _ _ _ Hz).
  destruct (listing_result _ _ _); intros [= <- <-];
    (split; [done|]); (split; [|split; [|done]]); cbn.
  - by rewrite writes_app, writes_replicate_reads, app_nil_r.
  - intros n Hn. by rewrite lookup_insert_ne.
  - by rewrite writes_app, writes_replicate_reads, app_nil_r.
  - done.
Qed.

Lemma zone_records_named_read_of name st r st' :
  zone_records_named name st = (r, st') → read_of name st st'.
Proof.
  unfold zone_records_named, bind at 1, get.
  destruct (_zone_records st !! name) as [snap|] eqn:Hc.
  - unfold fetch_zone_records, zones_get. unfold bind at 1, bind at 1.
    destruct (zones st) as [[zs|e] st1] eqn:Hzones.
    + pose proof (zones_read_of name _ _ _ Hzones) as H1.
      assert (_zones st1 = Some zs) as Hz1 by by eapply zones_run.
      intros Hrun. eapply read_of_trans; [exact H1|].
      eapply (fetch_read_of name st1 zs r st' Hz1).
      unfold fetch_zone_records.
      by rewrite (bind_run _ _ _ _ _ (zones_get_loaded _ _ name Hz1)).
    + intros [= <- <-]. by eapply zones_read_of.
  - unfold zones_get. unfold bind at 1, bind at 1.
    destruct (zones st) as [[zs|e] st1] eqn:Hzones.
    + pose proof (zones_read_of name _ _ _ Hzones) as H1.
      assert (_zones st1 = Some zs) as Hz1 by by eapply zones_run.
      cbn [ret]. destruct (truthy _).
      * intros Hrun. eapply read_of_trans; [exact H1|].
        by eapply fetch_read_of.
      * by intros [= <- <-].
    + intros [= <- <-]. by eapply zones_read_of.
Qed.

End ReadFacts.

(** X4. A read of a zone the loaded inventory knows (or one with cached
    record sets) lists it to the end: when no page of the record-set
    listing fails, [zone_records] executes one request per page, returns
    the record sets of all pages in the order listed, and stores that
    list under the zone's name. *)
Theorem zone_records_lists_all_pages {W : Type} `{DnsClient W} {Zone Rec : Type}
    `{RecordModel Zone Rec} (zone : Zone) (st : provider W)
    (zs : gmap string zone_id) (items : list rrset) :
  _zones st = Some zs →
  is_Some (_zone_records st !! zone_name zone)
  ∨ truthy (default ZFalse (zs !! zone_name zone)) = true →
  listing_items
    (resourceRecordSets_list (client st) (default ZFalse (zs !! zone_name zone)))
  = Some items →
  zone_records zone st
  = (Ok items,
     with_zone_records
       (<[ zone_name zone := SnapList items ]> (_zone_records st))
       (add_sent
          (replicate
             (listing_requests
                (resourceRecordSets_list (client st)
                   (default ZFalse (zs !! zone_name zone))))
             (ResourceRecordSetsList (default ZFalse (zs !! zone_name zone))))
          st)).
Proof.
  intros Hz Hknown Hitems. unfold zone_records.
  rewrite (zone_records_named_loaded _ _ _ Hz).
  assert (bool_decide (is_Some (_zone_records st !! zone_name zone))
          || truthy (default ZFalse (zs !! zone_name zone)) = true) as ->.
  { destruct Hknown as [Hc| ->]; [|apply orb_true_r].
    by rewrite bool_decide_eq_true_2. }
  rewrite (fetch_zone_records_loaded _ _ _ Hz).
  rewrite (listing_result_items _ _ _ _ Hitems).
  by rewrite fold_left_snoc.
Qed.

Lemma zone_records_lists_all_pages_witness :
  let st := Sample.loaded Sample.service in
  zone_records Sample.unit_tests st
  = (Ok Sample.unit_tests_rrsets,
     with_zone_records
       (<[ zone_name Sample.unit_tests := SnapList Sample.unit_tests_rrsets ]>
          (_zone_records st))
       (add_sent
          (replicate
             (listing_requests
                (resourceRecordSets_list (client st)
                   (default ZFalse (Sample.inventory !! zone_name Sample.unit_tests))))
             (ResourceRecordSetsList
                (default ZFalse (Sample.inventory !! zone_name Sample.unit_tests))))
          st)).
Proof.
  apply (zone_records_lists_all_pages Sample.unit_tests
           (Sample.loaded Sample.service) Sample.inventory
           Sample.unit_tests_rrsets).
  - reflexivity.
  - right. reflexivity.
  - reflexivity.
Defined.

(** X5. A failing page of the record-set listing makes [zone_records]
    raise after the requests up to that page; the cache, an earlier
    snapshot of the zone included, and the inventory stay as they
    were. *)
Theorem zone_records_failure_keeps_cache {W : Type} `{DnsClient W}
    {Zone Rec : Type} `{RecordModel Zone Rec} (zone : Zone) (st : provider W)
    (zs : gmap string zone_id) :
  _zones st = Some zs →
  is_Some (_zone_records st !! zone_name zone)
  ∨ truthy (default ZFalse (zs !! zone_name zone)) = true →
  listing_items
    (resourceRecordSets_list (client st) (default ZFalse (zs !! zone_name zone)))
  = None →
  ∃ e st',
    zone_records zone st = (Raise e, st')
    ∧ _zone_records st' = _zone_records st
    ∧ _zones st' = _zones st
    ∧ client st' = client st
    ∧ sent st'
      = sent st
        ++ replicate
             (listing_requests
                (resourceRecordSets_list (client st)
                   (default ZFalse (zs !! zone_name zone))))
             (ResourceRecordSetsList (default ZFalse (zs !! zone_name zone))).
Proof.
  intros Hz Hknown Hitems. unfold zone_records.
  rewrite (zone_records_named_loaded _ _ _ Hz).
  assert (bool_decide (is_Some (_zone_records st !! zone_name zone))
          || truthy (default ZFalse (zs !! zone_name zone)) = true) as ->.
  { destruct Hknown as [Hc| ->]; [|apply orb_true_r].
    by rewrite bool_decide_eq_true_2. }
  rewrite (fetch_zone_records_loaded _ _ _ Hz).
  destruct (listing_result_fails (λ records r, records ++ [r]) [] _ Hitems)
    as [e ->].
  by eexists e, _.
Qed.

Lemma zone_records_failure_keeps_cache_witness :
  let st := Sample.loaded Sample.no_rrsets_service in
  ∃ e st',
    zone_records Sample.unit_tests st = (Raise e, st')
    ∧ _zone_records st' = _zone_records st
    ∧ _zones st' = _zones st
    ∧ client st' = client st
    ∧ sent st'
      = sent st
        ++ replicate
             (listing_requests
                (resourceRecordSets_list (client st)
                   (default ZFalse (Sample.inventory !! zone_name Sample.unit_tests))))
             (ResourceRecordSetsList
                (default ZFalse (Sample.inventory !! zone_name Sample.unit_tests))).
Proof.
  apply (zone_records_failure_keeps_cache Sample.unit_tests
           (Sample.loaded Sample.no_rrsets_service) Sample.inventory).
  - reflexivity.
  - right. reflexivity.
  - reflexivity.
Defined.

(** X6. Reads only read: whatever their outcome, [zone_records] and
    [populate] leave the remote service as it is, send no write
    request, leave the cache entries of all other zones alone and keep
    a loaded inventory. *)
Theorem reads_only_read {W : Type} `{DnsClient W} {Zone Rec : Type}
    `{RecordModel Zone Rec} (zone : Zone) (lenient : bool) (st : provider W) :
  read_of (zone_name zone) st (snd (zone_records zone st))
  ∧ read_of (zone_name zone) st (snd (populate zone lenient st)).
Proof.
  assert (read_of (zone_name zone) st (snd (zone_records zone st))) as Hread.
  { unfold zone_records.
    destruct (zone_records_named (zone_name zone) st) as [r st'] eqn:Hrun.
    by eapply zone_records_named_read_of. }
  split; [exact Hread|].
  unfold populate. by destruct (zone_records zone st) as [[records|e] st'].
Qed.

(** ** Inbound translators *)

Section InboundFacts.

Lemma rmap_fails {A B} (f : A → result B) xs x :
  x ∈ xs → (∃ e, f x = Raise e) → ∃ e, rmap f xs = Raise e.
Proof.
  intros Hin [e He]. induction xs as [|y xs IH]; [by apply elem_of_nil in Hin|].
  cbn [rmap]. apply elem_of_cons in Hin as [<-|Hin].
  - rewrite He. by exists e.
  - destruct (f y) as [b|e']; [|by exists e']. cbn [rbind].
    destruct (IH Hin) as [e' ->]. by exists e'.
Qed.

Lemma rmap_same {A B} (f : A → result B) xs ys :
  Forall2 (λ x y, f x = f y) xs ys → rmap f xs = rmap f ys.
Proof.
  induction 1 as [|x y xs ys Hxy _ IH]; [done|].
  cbn [rmap]. by rewrite Hxy, IH.
Qed.

Lemma rmap_Ok_length {A B} (f : A → result B) xs ys :
  rmap f xs = Ok ys → length ys = length xs.
Proof.
  revert ys. induction xs as [|x xs IH]; intros ys; cbn [rmap].
  - by intros [= <-].
  - destruct (f x) as [b|]; [|done]. cbn [rbind].
    destruct (rmap f xs) as [bs|]; [|done]. cbn [rbind].
    intros [= <-]. cbn. by rewrite (IH bs).
Qed.

Lemma same_reading_rrdatas_0 r r' : same_reading r r' → rrdatas_0 r = rrdatas_0 r'.
Proof.
  intros (_ & _ & Hh). unfold rrdatas_0.
  destruct (rr_rrdatas r), (rr_rrdatas r'); by simplify_eq/=.
Qed.

Lemma same_reading_priority r r' : same_reading r r' → priority_of r = priority_of r'.
Proof. intros (_ & Hp & _). unfold priority_of. by rewrite Hp. Qed.

Lemma same_reading_first rs rs' :
  Forall2 same_reading rs rs' →
  rbind (first_record rs) (λ r, Ok (rr_ttl r))
  = rbind (first_record rs') (λ r, Ok (rr_ttl r)).
Proof. destruct 1 as [|r r' ? ? (Ht & _)]; [done|]. cbn. by rewrite Ht. Qed.

(** The translators [getattr] can return. *)
Lemma getattr_data_for_cases t data_for :
  getattr_data_for t = Ok data_for →
  data_for = _data_for_multiple ∨ data_for = _data_for_TXT
  ∨ data_for = _data_for_CNAME ∨ data_for = _data_for_MX
  ∨ data_for = _data_for_formatted.
Proof.
  unfold getattr_data_for. repeat case_decide; intros [= <-]; auto 10.
Qed.

End InboundFacts.

(** X7. First TTL wins: whichever inbound translator is used, the
    record data it returns for a group carries the TTL of the group's
    first entry and the type it was called with, also when later
    entries have other TTLs. *)
Theorem inbound_ttl_first_wins (t : string)
    (data_for : string → list rrset → result data)
    (r0 : rrset) (rest : list rrset) (d : data) :
  getattr_data_for t = Ok data_for →
  data_for t (r0 :: rest) = Ok d →
  d_ttl d = rr_ttl r0 ∧ d_type d = t.
Proof.
  intros Hattr Hd.
  destruct (getattr_data_for_cases _ _ Hattr) as [->|[->|[->|[->| ->]]]].
  - unfold _data_for_multiple in Hd. cbn [first_record rbind] in Hd.
    destruct (rmap _ _); [|done]. by injection Hd as <-.
  - unfold _data_for_TXT in Hd. cbn [first_record rbind] in Hd.
    destruct (rmap _ _); [|done]. by injection Hd as <-.
  - unfold _data_for_CNAME in Hd. cbn [first_record rbind] in Hd.
    destruct (rrdatas_0 _); [|done]. by injection Hd as <-.
  - unfold _data_for_MX in Hd.
    destruct (rmap _ _); [|done]. by injection Hd as <-.
  - unfold _data_for_formatted in Hd. cbn [first_record rbind] in Hd.
    destruct (rmap _ _); [|done]. by injection Hd as <-.
Qed.

Lemma inbound_ttl_first_wins_witness :
  let r0 := {| rr_name := "x.unit.tests."; rr_type := "A"; rr_ttl := 60;
               rr_rrdatas := ["1.2.3.4"]; rr_priority := None |} in
  let d := {| d_ttl := 60; d_type := "A";
              d_payload := Values [VStr "1.2.3.4"; VStr "5.6.7.8"] |} in
  d_ttl d = rr_ttl r0 ∧ d_type d = "A".
Proof.
  apply (inbound_ttl_first_wins "A" _data_for_A
           {| rr_name := "x.unit.tests."; rr_type := "A"; rr_ttl := 60;
              rr_rrdatas := ["1.2.3.4"]; rr_priority := None |}
           [Sample.rr "x.unit.tests." "A" ["5.6.7.8"]]);
    reflexivity.
Defined.

(** X8. The inbound translators read only the TTL, the priority and the
    first raw string of an entry: two groups that agree on these, entry
    by entry, are translated alike, success or failure.  Further raw
    strings of a record set never reach the neutral record. *)
Theorem inbound_reads_first_rrdata_only (t : string)
    (data_for : string → list rrset → result data)
    (records records' : list rrset) :
  getattr_data_for t = Ok data_for →
  Forall2 same_reading records records' →
  data_for t records = data_for t records'.
Proof.
  intros Hattr Hsame.
  assert (first_record records = Raise IndexError
          ∧ first_record records' = Raise IndexError
          ∨ ∃ r r', first_record records = Ok r ∧ first_record records' = Ok r'
                    ∧ same_reading r r') as Hfirst.
  { destruct Hsame as [|r r' ? ? Hr _]; [by left|]. right. by exists r, r'. }
  assert (∀ g : string → rvalue,
            rmap (λ r, rbind (rrdatas_0 r) (λ s, Ok (g s))) records
            = rmap (λ r, rbind (rrdatas_0 r) (λ s, Ok (g s))) records') as Hmap.
  { intros g. apply rmap_same. eapply Forall2_impl; [exact Hsame|].
    intros r r' Hr. cbn. by rewrite (same_reading_rrdatas_0 r r' Hr). }
  destruct (getattr_data_for_cases _ _ Hattr) as [->|[->|[->|[->| ->]]]].
  - unfold _data_for_multiple. rewrite (Hmap VStr).
    destruct Hfirst as [[-> ->]|(r & r' & -> & -> & Ht & _)]; [done|].
    cbn [rbind]. by rewrite Ht.
  - unfold _data_for_TXT. rewrite (Hmap (λ s, VStr (txt_escape s))).
    destruct Hfirst as [[-> ->]|(r & r' & -> & -> & Ht & _)]; [done|].
    cbn [rbind]. by rewrite Ht.
  - unfold _data_for_CNAME.
    destruct Hfirst as [[-> ->]|(r & r' & -> & -> & Hr)]; [done|].
    cbn [rbind]. rewrite (same_reading_rrdatas_0 r r' Hr).
    destruct Hr as (-> & _). done.
  - unfold _data_for_MX.
    assert (rmap (λ r, rbind (priority_of r) (λ p,
                       rbind (rrdatas_0 r) (λ s, Ok (VMx p (PyStr.format s)))))
                 records
            = rmap (λ r, rbind (priority_of r) (λ p,
                         rbind (rrdatas_0 r) (λ s, Ok (VMx p (PyStr.format s)))))
                   records') as ->.
    { apply rmap_same. eapply Forall2_impl; [exact Hsame|].
      intros r r' Hr. cbn.
      by rewrite (same_reading_rrdatas_0 r r' Hr), (same_reading_priority r r' Hr). }
    destruct (rmap _ records'); [|done]. cbn [rbind].
    destruct Hfirst as [[-> ->]|(r & r' & -> & -> & Ht & _)]; [done|].
    cbn [rbind]. by rewrite Ht.
  - unfold _data_for_formatted. rewrite (Hmap (λ s, VStr (PyStr.format s))).
    destruct Hfirst as [[-> ->]|(r & r' & -> & -> & Ht & _)]; [done|].
    cbn [rbind]. by rewrite Ht.
Qed.

Lemma inbound_reads_first_rrdata_only_witness :
  _data_for_A "A" [Sample.rr "x.unit.tests." "A" ["1.2.3.4"; "5.6.7.8"]]
  = _data_for_A "A" [Sample.rr "x.unit.tests." "A" ["1.2.3.4"]].
Proof.
  apply (inbound_reads_first_rrdata_only "A" _data_for_A).
  - reflexivity.
  - repeat constructor.
Defined.

(** X9. MX groups: when every entry has a priority and a raw string,
    the MX translator returns one [{preference, exchange}] value per
    entry, in the order of the entries, with the entry's priority and
    its first raw string. *)
Theorem inbound_MX_values (t : string) (r0 : rrset) (rest : list rrset) :
  Forall (λ r, is_Some (rr_priority r) ∧ rr_rrdatas r ≠ []) (r0 :: rest) →
  _data_for_MX t (r0 :: rest)
  = Ok {| d_ttl := rr_ttl r0; d_type := t;
          d_payload := Values (map mx_value (r0 :: rest)) |}.
Proof.
  intros Hall. unfold _data_for_MX.
  rewrite (rmap_total _ mx_value); [done|].
  eapply Forall_impl; [exact Hall|].
  intros r [[p Hp] Hr]. cbn beta. unfold priority_of, mx_value.
  rewrite Hp. cbn [rbind default from_option id].
  by rewrite (rrdatas_0_head r Hr).
Qed.

Lemma inbound_MX_values_witness :
  let mx p s := {| rr_name := "unit.tests."; rr_type := "MX"; rr_ttl := 300;
                   rr_rrdatas := [s]; rr_priority := Some p |} in
  _data_for_MX "MX" [mx 20 "backup.unit.tests."; mx 10 "mail.unit.tests."]
  = Ok {| d_ttl := 300; d_type := "MX";
          d_payload :=
            Values (map mx_value
                      [mx 20 "backup.unit.tests."; mx 10 "mail.unit.tests."]) |}.
Proof.
  apply (inbound_MX_values "MX").
  constructor; [split; [by eexists|done]|].
  constructor; [split; [by eexists|done]|].
  constructor.
Defined.

(** X10. What makes an inbound translation fail: every translator
    raises [IndexError] on an empty group; and for every type but CNAME
    the translator raises when some entry of the group has no raw
    string, the MX one also when some entry has no priority. *)
Theorem inbound_failures (t : string)
    (data_for : string → list rrset → result data) :
  getattr_data_for t = Ok data_for →
  data_for t [] = Raise IndexError
  ∧ ∀ records r,
      r ∈ records →
      (t ≠ "CNAME" ∧ rr_rrdatas r = []) ∨ (t = "MX" ∧ rr_priority r = None) →
      ∃ e, data_for t records = Raise e.
Proof.
  intros Hattr.
  assert (∀ records r (g : string → rvalue),
            r ∈ records → rr_rrdatas r = [] →
            ∃ e, rbind (first_record records) (λ r0,
                 rbind (rmap (λ r, rbind (rrdatas_0 r) (λ s, Ok (g s))) records)
                   (λ vs, Ok {| d_ttl := rr_ttl r0; d_type := t;
                                d_payload := Values vs |})) = Raise e)
    as Hmap.
  { intros records r g Hin Hr.
    destruct (first_record records); [|by eexists]. cbn [rbind].
    destruct (rmap_fails (λ r, rbind (rrdatas_0 r) (λ s, Ok (g s))) records r Hin)
      as [e ->]; [|by eexists].
    exists IndexError. unfold rrdatas_0. by rewrite Hr. }
  assert (∀ records r, r ∈ records →
            rr_rrdatas r = [] ∨ rr_priority r = None →
            ∃ e, _data_for_MX t records = Raise e) as Hmx.
  { intros records r Hin Hbad. unfold _data_for_MX.
    destruct (rmap_fails
                (λ r, rbind (priority_of r) (λ p,
                      rbind (rrdatas_0 r) (λ s, Ok (VMx p (PyStr.format s)))))
                records r Hin) as [e ->]; [|by eexists].
    unfold priority_of, rrdatas_0.
    destruct (rr_priority r) as [p|]; [|by eexists].
    destruct Hbad as [-> | ?]; [by eexists|done]. }
  unfold getattr_data_for in Hattr.
  repeat case_decide; try discriminate Hattr;
    injection Hattr as <-; (split; [reflexivity|]);
    intros records r Hin [[Hc Hr]|[Hm Hp]]; try congruence;
    first [ apply (Hmx records r Hin); by auto
          | apply (Hmap records r VStr Hin Hr)
          | apply (Hmap records r (λ s, VStr (txt_escape s)) Hin Hr)
          | apply (Hmap records r (λ s, VStr (PyStr.format s)) Hin Hr) ].
Qed.

Lemma inbound_failures_witness :
  _data_for_MX "MX" [] = Raise IndexError
  ∧ ∀ records r,
      r ∈ records →
      ("MX" ≠ "CNAME" ∧ rr_rrdatas r = []) ∨ ("MX" = "MX" ∧ rr_priority r = None) →
      ∃ e, _data_for_MX "MX" records = Raise e.
Proof. apply (inbound_failures "MX" _data_for_MX). reflexivity. Defined.

(** The failures on sample groups: the exception each one raises. *)
Example inbound_failures_run :
  _data_for_MX "MX" [Sample.rr "unit.tests." "MX" ["mail.unit.tests."]]
  = Raise (KeyError "priority")
  ∧ _data_for_A "A" [Sample.rr "x.unit.tests." "A" ["1.2.3.4"];
                     Sample.rr "x.unit.tests." "A" []]
    = Raise IndexError
  ∧ _data_for_CNAME "CNAME" [Sample.rr "c.unit.tests." "CNAME" ["x.unit.tests."];
                             Sample.rr "c.unit.tests." "CNAME" []]
    = Ok {| d_ttl := 300; d_type := "CNAME"; d_payload := Value "x.unit.tests." |}.
Proof. repeat split; reflexivity. Qed.

(** X11. NS, SRV and NAPTR groups are taken over verbatim: when every
    entry has a raw string, the value list is the first raw string of
    each entry, unchanged and in the order of the entries (no field of
    an SRV or NAPTR string is split off). *)
Theorem inbound_verbatim (t : string) (r0 : rrset) (rest : list rrset) :
  t ∈ ["NS"; "SRV"; "NAPTR"] →
  Forall (λ r, rr_rrdatas r ≠ []) (r0 :: rest) →
  ∃ data_for,
    getattr_data_for t = Ok data_for
    ∧ data_for t (r0 :: rest)
      = Ok {| d_ttl := rr_ttl r0; d_type := t;
              d_payload := Values (map (λ r, VStr (head_rrdata r)) (r0 :: rest)) |}.
Proof.
  intros Ht Hall. exists _data_for_formatted. split.
  - repeat (apply elem_of_cons in Ht as [->|Ht]); try reflexivity.
    by apply elem_of_nil in Ht.
  - unfold _data_for_formatted. cbn [first_record rbind].
    rewrite (rmap_total _ (λ r, VStr (head_rrdata r))); [done|].
    eapply Forall_impl; [exact Hall|].
    intros r Hr. cbn beta. by rewrite (rrdatas_0_head r Hr).
Qed.

Lemma inbound_verbatim_witness :
  let r0 := Sample.rr "_s._tcp.unit.tests." "SRV" ["10 20 30 a.unit.tests."] in
  let r1 := Sample.rr "_s._tcp.unit.tests." "SRV" ["12 20 30 b.unit.tests."] in
  ∃ data_for,
    getattr_data_for "SRV" = Ok data_for
    ∧ data_for "SRV" [r0; r1]
      = Ok {| d_ttl := rr_ttl r0; d_type := "SRV";
              d_payload := Values (map (λ r, VStr (head_rrdata r)) [r0; r1]) |}.
Proof.
  apply (inbound_verbatim "SRV").
  - right. left.
  - repeat (constructor; [done|]). constructor.
Defined.

(** ** Outbound translators *)

(** X12. The fragments of TXT and MX records: a TXT record with string
    values yields, value by value and in order, [{content: v}] with
    every [\;] of [v] turned back into [;]; an MX record yields, pair
    by pair and in order, [{priority: preference, content: exchange}]. *)
Theorem outbound_TXT_MX_fragments {Zone : Type} (record : NeutralRecord Zone) :
  (∀ ss,
     rec_payload record = Values (map VStr ss) →
     exhausts (_contents_for_TXT record) = true
     ∧ yielded (_contents_for_TXT record)
       = map (λ s, {[ "content" := PStr (txt_unescape s) ]}) ss)
  ∧ (∀ ps : list (Z * string),
       rec_payload record = Values (map (λ '(p, e), VMx p e) ps) →
       exhausts (_contents_for_MX record) = true
       ∧ yielded (_contents_for_MX record)
         = map (λ '(p, e), <[ "priority" := PInt p ]> {[ "content" := PStr e ]})
             ps).
Proof.
  split.
  - intros ss Hp.
    destruct (contents_for_TXT_values record _ Hp) as [He Hy].
    { clear. induction ss; [done|]. done. }
    split; [exact He|]. rewrite Hy. by rewrite map_map.
  - intros ps Hp.
    destruct (contents_for_MX_values record _ Hp) as [He Hy].
    { clear. induction ps as [|[p e] ps IH]; [done|]. exact IH. }
    split; [exact He|]. rewrite Hy, map_map.
    apply map_ext. by intros [p e].
Qed.

Lemma outbound_TXT_MX_fragments_witness :
  exhausts (_contents_for_TXT Sample.t_TXT) = true
  ∧ yielded (_contents_for_TXT Sample.t_TXT)
    = map (λ s, {[ "content" := PStr (txt_unescape s) ]}) ["v=spf1\; -all"].
Proof.
  apply (proj1 (outbound_TXT_MX_fragments Sample.t_TXT) ["v=spf1\; -all"]).
  reflexivity.
Defined.

(** ** Creating a record *)

Section CreateFacts.
Context {W : Type} `{DnsClient W} {Zone Rec : Type} `{RecordModel Zone Rec}.
Implicit Types st : provider W.

(** Whatever its outcome, a fragment loop has sent the requests of a
    prefix of the fragments, in order, and touched neither cache. *)
Lemma for_gen_sends_prefix (mk : fragment → change_body) zone_id g st r st' :
  for_gen (λ content, changes_create_execute zone_id (mk content)) g st
  = (r, st') →
  ∃ k, sent st' = sent st ++ map (λ c, ChangesCreate zone_id (mk c))
                               (take k (yielded g))
       ∧ _zones st' = _zones st
       ∧ _zone_records st' = _zone_records st.
Proof.
  revert st. induction g as [|content g IH|e]; intros st; cbn [for_gen].
  - intros [= _ <-]. exists 0%nat. by rewrite app_nil_r.
  - intros [([] & st1 & Hsend & Hrest)|(e & Hsend & _)]%bind_inv.
    + rewrite changes_create_execute_run in Hsend.
      destruct (changes_create _ _ _) as [w|]; [|done].
      injection Hsend as <-.
      destruct (IH _ Hrest) as (k & Hs & Hz & Hc).
      exists (S k). cbn in *. by rewrite Hs, <- app_assoc.
    + rewrite changes_create_execute_run in Hsend.
      destruct (changes_create _ _ _) as [w|]; [done|].
      injection Hsend as _ <-. by exists 1%nat.
  - intros [= _ <-]. exists 0%nat. by rewrite app_nil_r.
Qed.

End CreateFacts.

(** X13. A [Create] that completes has found the zone's identifier and
    the translator of the record's type, has run the translator to its
    end, and has sent exactly one write request per fragment, in the
    order of the fragments: each declares one addition, the fragment
    with the record's name, type and ttl set. *)
Theorem create_sends_one_addition_per_fragment {W : Type} `{DnsClient W}
    {Zone Rec : Type} `{RecordModel Zone Rec} (new : NeutralRecord Zone)
    (st st' : provider W) :
  _apply_Create new st = (Ok tt, st') →
  ∃ zone_id st0 contents_for,
    zones_getitem (zone_name (rec_zone new)) st = (Ok zone_id, st0)
    ∧ getattr_contents_for (rec_type new) = Ok contents_for
    ∧ exhausts (contents_for new) = true
    ∧ sent st' = sent st0 ++ map (addition new zone_id) (yielded (contents_for new)).
Proof.
  unfold _apply_Create.
  intros (zone_id & st0 & Hid & Hrun)%bind_Ok_inv.
  destruct (getattr_contents_for (rec_type new)) as [contents_for|e] eqn:Hattr;
    [|done].
  unfold bind at 1, lift in Hrun.
  exists zone_id, st0, contents_for. split; [exact Hid|]. split; [done|].
  by apply (for_gen_sends
              (λ content, {| kind := "dns#change";
                             additions := Some [content_update new content];
                             deletions := None |})) in Hrun.
Qed.

Lemma create_sends_one_addition_per_fragment_witness :
  let st := Sample.loaded Sample.service in
  ∃ zone_id st0 contents_for,
    zones_getitem (zone_name (rec_zone Sample.x_A)) st = (Ok zone_id, st0)
    ∧ getattr_contents_for (rec_type Sample.x_A) = Ok contents_for
    ∧ exhausts (contents_for Sample.x_A) = true
    ∧ sent (snd (_apply_Create Sample.x_A st))
      = sent st0
        ++ map (addition Sample.x_A zone_id) (yielded (contents_for Sample.x_A)).
Proof.
  apply (create_sends_one_addition_per_fragment Sample.x_A
           (Sample.loaded Sample.service)).
  reflexivity.
Defined.

(** X14. However a [Create] ends once the identifier and the translator
    are found, the requests it sent are the additions of a prefix of the
    fragments, in order (a refused request being the last one sent), and
    it changed neither the inventory nor the record-set cache. *)
Theorem create_sends_a_prefix {W : Type} `{DnsClient W}
    {Zone Rec : Type} `{RecordModel Zone Rec} (new : NeutralRecord Zone)
    (st st0 st' : provider W) (zone_id : zone_id)
    (contents_for : NeutralRecord Zone → gen fragment) (r : result unit) :
  zones_getitem (zone_name (rec_zone new)) st = (Ok zone_id, st0) →
  getattr_contents_for (rec_type new) = Ok contents_for →
  _apply_Create new st = (r, st') →
  ∃ k,
    sent st'
    = sent st0 ++ map (addition new zone_id) (take k (yielded (contents_for new)))
    ∧ _zones st' = _zones st0
    ∧ _zone_records st' = _zone_records st0.
Proof.
  intros Hid Hattr. unfold _apply_Create.
  rewrite (bind_run _ _ _ _ _ Hid), Hattr. unfold bind at 1, lift.
  apply (for_gen_sends_prefix
           (λ content, {| kind := "dns#change";
                          additions := Some [content_update new content];
                          deletions := None |})).
Qed.

Lemma create_sends_a_prefix_witness :
  let st := Sample.loaded Sample.open_service in
  let new := Sample.record_of Sample.other "w.other.tests." "A"
               (Values [VStr "1.1.1.1"; VStr "2.2.2.2"]) in
  ∃ k,
    sent (snd (_apply_Create new st))
    = sent st ++ map (addition new (ZId "11")) (take k (yielded (_contents_for_A new)))
    ∧ _zones (snd (_apply_Create new st)) = _zones st
    ∧ _zone_records (snd (_apply_Create new st)) = _zone_records st.
Proof.
  apply (create_sends_a_prefix
           (Sample.record_of Sample.other "w.other.tests." "A"
              (Values [VStr "1.1.1.1"; VStr "2.2.2.2"]))
           (Sample.loaded Sample.open_service)
           (Sample.loaded Sample.open_service) _ (ZId "11") _contents_for_A
           (fst (_apply_Create
                   (Sample.record_of Sample.other "w.other.tests." "A"
                      (Values [VStr "1.1.1.1"; VStr "2.2.2.2"]))
                   (Sample.loaded Sample.open_service))));
    reflexivity.
Defined.

(** X16. A [Create] of a record whose type has no outbound translator
    (SRV, NAPTR, CAA, PTR, ...) never completes and never writes: it
    raises having at most read the inventory, and once the zone's
    identifier is found the exception is the missing attribute. *)
Theorem create_without_translator {W : Type} `{DnsClient W}
    {Zone Rec : Type} `{RecordModel Zone Rec} (new : NeutralRecord Zone)
    (st : provider W) :
  rec_type new ∉ ["A"; "AAAA"; "NS"; "SPF"; "TXT"; "CNAME"; "MX"] →
  ∃ e st',
    _apply_Create new st = (Raise e, st')
    ∧ read_of (zone_name (rec_zone new)) st st'
    ∧ (∀ zone_id st0,
         zones_getitem (zone_name (rec_zone new)) st = (Ok zone_id, st0) →
         e = AttributeError ("_contents_for_" +:+ rec_type new) ∧ st' = st0).
Proof.
  intros Ht. unfold _apply_Create.
  rewrite (getattr_contents_for_missing (Zone := Zone) _ Ht).
  assert (∀ r st0, zones_getitem (zone_name (rec_zone new)) st = (r, st0) →
                   read_of (zone_name (rec_zone new)) st st0) as Hread.
  { intros r st0. unfold zones_getitem.
    intros [(zs & st1 & Hz & Hk)|(e & Hz & _)]%bind_inv.
    - destruct (zs !! _); injection Hk as _ <-; by eapply zones_read_of.
    - by eapply zones_read_of. }
  destruct (zones_getitem (zone_name (rec_zone new)) st) as [[zone_id|e] st0] eqn:Hid.
  - eexists _, st0. split; [by rewrite (bind_run _ _ _ _ _ Hid)|].
    split; [by eapply Hread|]. by intros ? ? [= <- <-].
  - exists e, st0. split; [by rewrite (bind_raise _ _ _ _ _ Hid)|].
    split; [by eapply Hread|]. done.
Qed.

Lemma create_without_translator_witness :
  ∃ e st',
    _apply_Create Sample.s_SRV Sample.fresh = (Raise e, st')
    ∧ read_of (zone_name (rec_zone Sample.s_SRV)) Sample.fresh st'
    ∧ (∀ zone_id st0,
         zones_getitem (zone_name (rec_zone Sample.s_SRV)) Sample.fresh
         = (Ok zone_id, st0) →
         e = AttributeError ("_contents_for_" +:+ rec_type Sample.s_SRV)
         ∧ st' = st0).
Proof.
  apply (create_without_translator Sample.s_SRV Sample.fresh).
  intros Hin. not_in_list Hin.
Defined.

(** ** Deleting a record *)

(** X15. A [Delete] that completes has looked up the zone's identifier
    and listed the zone's record sets; with an empty listing it sends
    nothing (and does not even look for a translator); otherwise it
    sends, once for every record set listed, the deletions of all the
    fragments of the record: [len(listing) * len(fragments)] write
    requests. *)
Theorem delete_sends_per_listed_record {W : Type} `{DnsClient W}
    {Zone Rec : Type} `{RecordModel Zone Rec} (existing : NeutralRecord Zone)
    (st st' : provider W) :
  _apply_Delete existing st = (Ok tt, st') →
  ∃ zone_id st0 records st1,
    zones_getitem (zone_name (rec_zone existing)) st = (Ok zone_id, st0)
    ∧ zone_records (rec_zone existing) st0 = (Ok records, st1)
    ∧ (records = [] → st' = st1)
    ∧ (∀ contents_for,
         getattr_contents_for (rec_type existing) = Ok contents_for →
         sent st'
         = sent st1
           ++ concat (replicate (length records)
                        (map (deletion existing zone_id)
                           (yielded (contents_for existing))))
         ∧ length (writes (sent st'))
           = (length (writes (sent st1))
              + length records * length (yielded (contents_for existing)))%nat).
Proof.
  intros Hrun. pose proof Hrun as Hrun'. unfold _apply_Delete in Hrun'.
  apply bind_Ok_inv in Hrun' as (zone_id & st0 & Hid & Hrun').
  apply bind_Ok_inv in Hrun' as (records & st1 & Hread & Hloop).
  exists zone_id, st0, records, st1. split; [exact Hid|]. split; [exact Hread|].
  split.
  - intros ->. by injection Hloop as <-.
  - intros contents_for Hattr.
    destruct (apply_Delete_sends existing contents_for st st' Hattr Hrun)
      as (zone_id' & st0' & records' & st1' & Hid' & Hread' & Hsent & Hlen).
    rewrite Hid in Hid'. injection Hid' as <- <-.
    rewrite Hread in Hread'. injection Hread' as <- <-.
    by split.
Qed.

Lemma delete_sends_per_listed_record_witness :
  let st := Sample.fresh in
  let st' := snd (_apply_Delete Sample.x_A st) in
  ∃ zone_id st0 records st1,
    zones_getitem (zone_name (rec_zone Sample.x_A)) st = (Ok zone_id, st0)
    ∧ zone_records (rec_zone Sample.x_A) st0 = (Ok records, st1)
    ∧ (records = [] → st' = st1)
    ∧ (∀ contents_for,
         getattr_contents_for (rec_type Sample.x_A) = Ok contents_for →
         sent st'
         = sent st1
           ++ concat (replicate (length records)
                        (map (deletion Sample.x_A zone_id)
                           (yielded (contents_for Sample.x_A))))
         ∧ length (writes (sent st'))
           = (length (writes (sent st1))
              + length records * length (yielded (contents_for Sample.x_A)))%nat).
Proof.
  apply (delete_sends_per_listed_record Sample.x_A Sample.fresh).
  reflexivity.
Defined.

(** ** Applying a plan: failures *)

(** X18. A plan with an [Update] change is never applied to the end:
    no handler exists for that class, so [_apply] raises, at that
    change or before it. *)
Theorem apply_with_update_raises {W : Type} `{DnsClient W}
    {Zone Rec : Type} `{RecordModel Zone Rec} (p : plan Zone)
    (existing new : NeutralRecord Zone) (st : provider W) :
  Update existing new ∈ changes p →
  ∃ e st', _apply p st = (Raise e, st').
Proof.
  intros Hin. unfold _apply. cbn zeta.
  destruct (zones st) as [[zs0|e] st0] eqn:Hzones.
  2:{ exists e, st0. by apply bind_raise. }
  assert (_zones st0 = Some zs0) as Hz0 by by eapply zones_run.
  rewrite (bind_run _ _ _ _ _ Hzones).
  rewrite (bind_run _ _ _ _ _ (apply_enter_run _ _ _ Hz0)).
  match goal with
  | |- ∃ e st', bind (for_each _ _) _ ?s = _ =>
      destruct (for_each_fails apply_change (changes p) _ Hin
                  (λ st1, ex_intro _ (AttributeError "_apply_Update")
                            (ex_intro _ st1 eq_refl)) s) as (e & st3 & Hfail)
  end.
  exists e, st3. by apply bind_raise.
Qed.

Lemma apply_with_update_raises_witness :
  ∃ e st',
    _apply {| desired := Sample.unit_tests;
              changes := [Create Sample.x_A; Update Sample.x_A Sample.x_A] |}
      Sample.fresh
    = (Raise e, st').
Proof.
  apply (apply_with_update_raises
           {| desired := Sample.unit_tests;
              changes := [Create Sample.x_A; Update Sample.x_A Sample.x_A] |}
           Sample.x_A Sample.x_A Sample.fresh).
  apply list_elem_of_further, list_elem_of_here.
Defined.

(** On that plan the addition before the [Update] was sent, and the
    cache was not cleared. *)
Example apply_with_update_runs :
  let r := _apply {| desired := Sample.unit_tests;
                     changes := [Create Sample.x_A; Update Sample.x_A Sample.x_A] |}
             Sample.fresh in
  fst r = Raise (AttributeError "_apply_Update")
  ∧ map is_change (sent (snd r)) = [false; false; true].
Proof. split; reflexivity. Qed.

Section FailedApply.
Context {W : Type} `{DnsClient W} {Zone Rec : Type} `{RecordModel Zone Rec}.
Implicit Types st : provider W.

Lemma apply_change_keeps_entry zs name (c : change Zone) :
  keeps (entry_kept (W := W) zs name) (apply_change c).
Proof.
  apply (keeps_apply_change _ (λ _, True)).
  - intros st [Hz _]. by eexists.
  - by intros st rs [Hz Hc].
  - by intros st w [Hz Hc].
  - intros st n records [Hz Hc] _. split; [done|]. cbn.
    apply lookup_insert_is_Some. destruct (decide (n = name)); auto.
  - intros st n zs' _ Hno. by destruct Hno.
Qed.

End FailedApply.

(** X19. A failed [_apply] on a zone the inventory did not hold leaves
    its traces: the name stays entered with [False] and the cache entry
    made for it is not removed, so the next read of the zone no longer
    returns early but sends a record-set listing request with [False]
    as the managed zone. *)
Theorem failed_apply_leaves_entry {W : Type} `{DnsClient W}
    {Zone Rec : Type} `{RecordModel Zone Rec} (p : plan Zone)
    (st : provider W) (zs0 : gmap string zone_id) (st0 : provider W)
    (e : exn) (st' : provider W) :
  zones st = (Ok zs0, st0) →
  zs0 !! zone_name (desired p) = None →
  _apply p st = (Raise e, st') →
  _zones st' = Some (<[ zone_name (desired p) := ZFalse ]> zs0)
  ∧ is_Some (_zone_records st' !! zone_name (desired p))
  ∧ ∃ r st'' more,
      zone_records (desired p) st' = (r, st'')
      ∧ sent st'' = sent st' ++ ResourceRecordSetsList ZFalse :: more.
Proof.
  intros Hzones Hl Hrun.
  assert (_zones st0 = Some zs0) as Hz0 by by eapply zones_run.
  assert (entry_kept (<[ zone_name (desired p) := ZFalse ]> zs0)
            (zone_name (desired p)) st') as [Hz' Hc'].
  { unfold _apply in Hrun. cbn zeta in Hrun.
    rewrite (bind_run _ _ _ _ _ Hzones) in Hrun.
    rewrite (bind_run _ _ _ _ _ (apply_enter_run _ _ _ Hz0)) in Hrun.
    rewrite Hl in Hrun.
    apply bind_inv in Hrun as [([] & st3 & _ & Hfin)|(e' & Hch & _)];
      [done|].
    eapply (keeps_for_each _ apply_change (changes p)
              (apply_change_keeps_entry _ _)); [|exact Hch].
    split; [done|]. cbn. rewrite lookup_insert_eq. by eexists. }
  split; [exact Hz'|]. split; [exact Hc'|].
  destruct (zone_records_cached_refetches st' _ (zone_name (desired p)) Hz' Hc')
    as (r & st'' & more & Hread & Hsent).
  rewrite lookup_insert_eq in Hsent. by exists r, st'', more.
Qed.

Lemma failed_apply_leaves_entry_witness :
  let p := {| desired := Sample.missing; changes := [Create Sample.new_A] |} in
  let st' := snd (_apply p Sample.fresh) in
  _zones st' = Some (<[ zone_name (desired p) := ZFalse ]> Sample.inventory)
  ∧ is_Some (_zone_records st' !! zone_name (desired p))
  ∧ ∃ r st'' more,
      zone_records (desired p) st' = (r, st'')
      ∧ sent st'' = sent st' ++ ResourceRecordSetsList ZFalse :: more.
Proof.
  apply (failed_apply_leaves_entry
           {| desired := Sample.missing; changes := [Create Sample.new_A] |}
           Sample.fresh Sample.inventory (Sample.loaded Sample.service)
           (HttpError "notFound")); reflexivity.
Defined.

Section SentGrows.
Context {W : Type} `{DnsClient W} {Zone Rec : Type} `{RecordModel Zone Rec}.
Implicit Types st : provider W.

Lemma sent_from_add base st rs : sent_from base st → sent_from base (add_sent rs st).
Proof.
  intros [Hz [more Hs]]. split; [done|]. exists (more ++ rs). cbn.
  by rewrite Hs, app_assoc.
Qed.

Lemma changes_create_execute_keeps_sent base zone_id body :
  keeps (sent_from (W := W) base) (changes_create_execute zone_id body).
Proof.
  apply (keeps_changes_create_execute (sent_from base)).
  - intros st rs. apply sent_from_add.
  - by intros st w [Hz Hs].
Qed.

(** Requests once sent stay in the log, whatever a change does. *)
Lemma apply_change_keeps_sent base (c : change Zone) :
  keeps (sent_from (W := W) base) (apply_change c).
Proof.
  apply (keeps_apply_change _ (λ _, True)).
  - by intros st [Hz _].
  - intros st rs. apply sent_from_add.
  - by intros st w [Hz Hs].
  - by intros st n records [Hz Hs] _.
  - intros st n zs' _ Hno. by destruct Hno.
Qed.

End SentGrows.

(** X17. Applying a plan to a zone the inventory does not hold does not
    create the zone: the name is entered with [False], and when the
    plan starts with a [Create] for that zone the first write request
    goes out with [False] as the managed zone. *)
Theorem apply_unknown_zone_writes_to_False {W : Type} `{DnsClient W}
    {Zone Rec : Type} `{RecordModel Zone Rec} (p : plan Zone)
    (st : provider W) (zs0 : gmap string zone_id) (st0 : provider W)
    (new : NeutralRecord Zone) (rest : list (change Zone))
    (contents_for : NeutralRecord Zone → gen fragment)
    (content : fragment) (g : gen fragment) :
  zones st = (Ok zs0, st0) →
  zs0 !! zone_name (desired p) = None →
  changes p = Create new :: rest →
  zone_name (rec_zone new) = zone_name (desired p) →
  getattr_contents_for (rec_type new) = Ok contents_for →
  contents_for new = GYield content g →
  ∃ r st' more,
    _apply p st = (r, st')
    ∧ sent st' = sent st0 ++ addition new ZFalse content :: more.
Proof.
  intros Hzones Hl Hchanges Hname Hattr Hgen.
  assert (_zones st0 = Some zs0) as Hz0 by by eapply zones_run.
  destruct (_apply p st) as [r st'] eqn:Hrun. exists r, st'.
  unfold _apply in Hrun. cbn zeta in Hrun.
  rewrite (bind_run _ _ _ _ _ Hzones) in Hrun.
  rewrite (bind_run _ _ _ _ _ (apply_enter_run _ _ _ Hz0)) in Hrun.
  rewrite Hl, Hchanges in Hrun. cbn [for_each apply_change] in Hrun.
  set (name := zone_name (desired p)) in *.
  set (st2 := with_zone_records _ (with_zones _ st0)) in Hrun.
  assert (_zones st2 = Some (<[ name := ZFalse ]> zs0)) as Hz2 by done.
  assert (zones_getitem name st2 = (Ok ZFalse, st2)) as Hid.
  { by rewrite (zones_getitem_loaded _ _ _ Hz2), lookup_insert_eq. }
  set (base := sent st0 ++ [addition new ZFalse content]).
  assert (∀ r1 st3, _apply_Create new st2 = (r1, st3) → sent_from base st3)
    as Hcreate.
  { intros r1 st3. unfold _apply_Create. rewrite Hname.
    rewrite (bind_run _ _ _ _ _ Hid), Hattr. unfold bind at 1, lift.
    rewrite Hgen. cbn [for_gen].
    intros [([] & st4 & Hsend & Hrest)|(e' & Hsend & _)]%bind_inv.
    - eapply (keeps_for_gen _ _ g); [|
        |exact Hrest].
      + intros c. apply changes_create_execute_keeps_sent.
      + rewrite changes_create_execute_run in Hsend.
        destruct (changes_create _ _ _); [|done]. injection Hsend as <-.
        split; [by eexists|]. exists []. by rewrite app_nil_r.
    - rewrite changes_create_execute_run in Hsend.
      destruct (changes_create _ _ _); [done|]. injection Hsend as _ <-.
      split; [by eexists|]. exists []. by rewrite app_nil_r. }
  assert (sent_from base st') as [_ [more Hmore]].
  2:{ exists more. subst base. by rewrite Hmore, <- app_assoc. }
  apply bind_inv in Hrun as [([] & st4 & Hloop & Hfin)|(e' & Hloop & _)].
  - assert (sent_from base st4) as Hs4.
    { apply bind_inv in Hloop as [([] & st5 & Hfirst & Hrest)|(e' & _ & ?)];
        [|done].
      eapply (keeps_for_each _ apply_change rest
                (apply_change_keeps_sent _)); [|exact Hrest].
      by eapply Hcreate. }
    injection Hfin as _ <-. by destruct Hs4.
  - apply bind_inv in Hloop as [([] & st5 & Hfirst & Hrest)|(e'' & Hfirst & _)].
    + eapply (keeps_for_each _ apply_change rest
                (apply_change_keeps_sent _)); [|exact Hrest].
      by eapply Hcreate.
    + by eapply Hcreate.
Qed.

Lemma apply_unknown_zone_writes_to_False_witness :
  let p := {| desired := Sample.missing; changes := [Create Sample.new_A] |} in
  ∃ r st' more,
    _apply p Sample.fresh = (r, st')
    ∧ sent st'
      = sent (Sample.loaded Sample.service)
        ++ addition Sample.new_A ZFalse {[ "rrdatas" := PList [VStr "5.6.7.8"] ]}
           :: more.
Proof.
  apply (apply_unknown_zone_writes_to_False
           {| desired := Sample.missing; changes := [Create Sample.new_A] |}
           Sample.fresh Sample.inventory (Sample.loaded Sample.service)
           Sample.new_A [] _contents_for_A
           {[ "rrdatas" := PList [VStr "5.6.7.8"] ]} GStop);
    reflexivity.
Defined.

(** ** Text values *)

(** X20. The TXT values the inbound side produces are exactly the
    strings in escaped form: an escaped raw string is in escaped form,
    a string in escaped form is the escaping of what it unescapes to,
    and different raw strings have different escapings. *)
Theorem txt_escaped_forms :
  (∀ s, is_escaped (txt_escape s) = true)
  ∧ (∀ v, is_escaped v = true → v = txt_escape (txt_unescape v))
  ∧ (∀ s1 s2, txt_escape s1 = txt_escape s2 → s1 = s2).
Proof.
  split; [apply txt_escape_is_escaped|]. split.
  - intros v Hv. symmetry. by apply txt_escape_unescape.
  - intros s1 s2 Heq.
    by rewrite <- (txt_unescape_escape s1), Heq, txt_unescape_escape.
Qed.

Lemma txt_escaped_forms_witness :
  "v=spf1\; -all" = txt_escape (txt_unescape "v=spf1\; -all").
Proof.
  apply (proj1 (proj2 txt_escaped_forms) "v=spf1\; -all"). reflexivity.
Defined.

(** ** The groups of [populate] *)

Section GroupFacts.
Context {Zone Rec : Type} `{RecordModel Zone Rec}.

Lemma group_record_nonempty (zone : Zone) values seen r :
  groups_ok zone values seen →
  (∀ name types t l, (name, types) ∈ values → (t, l) ∈ types → l ≠ []) →
  ∀ name types t l,
    (name, types) ∈ group_record zone values r → (t, l) ∈ types → l ≠ [].
Proof.
  intros (Hnd & Hgroups & _) Hne name types t l Hin Hl.
  unfold group_record in Hin.
  destruct (decide (rr_type r ∈ SUPPORTS)); [|by eapply Hne].
  apply elem_of_dict_update_inv in Hin
    as [[_ Hin]|[-> [(types0 & Hin & ->)|[_ ->]]]]; [| | |done].
  - by eapply Hne.
  - destruct (Hgroups _ _ Hin) as [Hndt _].
    apply elem_of_dict_update_inv in Hl
      as [[_ Hl]|[-> [(l0 & Hl & ->)|[_ ->]]]]; [| | |done].
    + by eapply Hne.
    + by destruct l0.
    + done.
  - by apply list_elem_of_singleton in Hl as [= -> ->].
Qed.

Lemma fold_group_nonempty (zone : Zone) records values seen :
  groups_ok zone values seen →
  (∀ name types t l, (name, types) ∈ values → (t, l) ∈ types → l ≠ []) →
  ∀ name types t l,
    (name, types) ∈ fold_left (group_record zone) records values →
    (t, l) ∈ types → l ≠ [].
Proof.
  revert values seen. induction records as [|r records IH];
    intros values seen Hok Hne; [exact Hne|].
  cbn [fold_left]. apply (IH _ (seen ++ [r])).
  - by apply group_record_ok.
  - by apply (group_record_nonempty zone values seen).
Qed.

End GroupFacts.

(** X21. The groups [populate] forms partition the supported part of
    the listing: host names are listed once, and so are the types under
    a host name; a group is never empty and is exactly the listed
    record sets with its host name and its (supported) type, in listing
    order, so no group mixes two types; and every listed record set of a
    supported type is in the group of its host name and type. *)
Theorem populate_groups_partition {Zone Rec : Type} `{RecordModel Zone Rec}
    (zone : Zone) (listing : list rrset) :
  NoDup (fold_left (group_record zone) listing []).*1
  ∧ (∀ name types,
       (name, types) ∈ fold_left (group_record zone) listing [] →
       NoDup types.*1
       ∧ ∀ t l,
           (t, l) ∈ types →
           l ≠ []
           ∧ l = group_of zone name t listing
           ∧ ∀ r, r ∈ l →
               r ∈ listing
               ∧ hostname_from_fqdn zone (rr_name r) = name
               ∧ rr_type r = t ∧ t ∈ SUPPORTS)
  ∧ (∀ r,
       r ∈ listing → rr_type r ∈ SUPPORTS →
       ∃ types l,
         (hostname_from_fqdn zone (rr_name r), types)
         ∈ fold_left (group_record zone) listing []
         ∧ (rr_type r, l) ∈ types
         ∧ r ∈ l).
Proof.
  assert (groups_ok zone [] []) as Hok0.
  { split; [apply NoDup_nil_2|]. split.
    - by intros ? ? ?%elem_of_nil.
    - by intros ? ?%elem_of_nil. }
  pose proof (fold_group_ok zone listing [] [] Hok0) as Hok.
  cbn [app] in Hok. destruct Hok as (Hnd & Hgroups & Hseen).
  split; [exact Hnd|]. split.
  - intros name types Hin. destruct (Hgroups name types Hin) as [Hndt Heq].
    split; [exact Hndt|]. intros t l Hl. split; [|split].
    + eapply (fold_group_nonempty zone listing [] [] Hok0); [|exact Hin|exact Hl].
      by intros ? ? ? ? ?%elem_of_nil.
    + by apply Heq.
    + intros r Hr. rewrite (Heq t l Hl) in Hr.
      apply list_elem_of_filter in Hr as [(Hn & Ht & Hs) Hr].
      repeat split; try done. by rewrite <- Ht.
  - intros r Hr Hs. destruct (Hseen r Hr Hs) as (types & l & Hin & Hl).
    exists types, l. split; [exact Hin|]. split; [exact Hl|].
    destruct (Hgroups _ _ Hin) as [_ Heq]. rewrite (Heq _ _ Hl).
    apply list_elem_of_filter. by repeat split.
Qed.

(** ** Writing and reading back *)

Section RoundTrip.
Context {Zone : Type}.
Implicit Types record : NeutralRecord Zone.

Lemma content_update_lookup record (c : fragment) :
  content_update record c !! "name" = Some (PStr (rec_fqdn record))
  ∧ content_update record c !! "type" = Some (PStr (rec_type record))
  ∧ content_update record c !! "ttl" = Some (PInt (rec_ttl record))
  ∧ ∀ k, k ≠ "name" → k ≠ "type" → k ≠ "ttl" →
         content_update record c !! k = c !! k.
Proof.
  unfold content_update. repeat split.
  - do 2 (rewrite lookup_insert_ne by done). by rewrite lookup_insert_eq.
  - rewrite lookup_insert_ne by done. by rewrite lookup_insert_eq.
  - by rewrite lookup_insert_eq.
  - intros k H1 H2 H3. by do 3 (rewrite lookup_insert_ne by congruence).
Qed.

Lemma yielded_gen_for {A B} (f : A → result B) xs b :
  b ∈ yielded (gen_for f xs) → ∃ x, x ∈ xs ∧ f x = Ok b.
Proof.
  induction xs as [|x xs IH]; cbn [gen_for].
  - by intros ?%elem_of_nil.
  - destruct (f x) as [b'|e] eqn:Hx; cbn [yielded].
    + intros [->|Hin]%elem_of_cons.
      * exists x. split; [apply list_elem_of_here|done].
      * destruct (IH Hin) as (x' & Hx' & Hb). exists x'.
        split; [by apply list_elem_of_further|done].
    + by intros ?%elem_of_nil.
Qed.

End RoundTrip.

(** X22. Writing then reading back a multi-value record: for a record
    of type A, AAAA, SPF or NS with string values, each addition sent
    by [Create] is, key for key, a wire entry with the record's name,
    type and ttl and one raw string; and the inbound translator of that
    type turns these entries back into the record's ttl, type and
    values. *)
Theorem multi_value_round_trip {Zone : Type} (record : NeutralRecord Zone)
    (s0 : string) (ss : list string) :
  rec_type record ∈ ["A"; "AAAA"; "SPF"; "NS"] →
  rec_payload record = Values (map VStr (s0 :: ss)) →
  ∃ contents_for data_for,
    getattr_contents_for (rec_type record) = Ok contents_for
    ∧ getattr_data_for (rec_type record) = Ok data_for
    ∧ Forall2 reads_as
        (map (content_update record) (yielded (contents_for record)))
        (map (entry_of record) (s0 :: ss))
    ∧ data_for (rec_type record) (map (entry_of record) (s0 :: ss))
      = Ok {| d_ttl := rec_ttl record; d_type := rec_type record;
              d_payload := rec_payload record |}.
Proof.
  intros Ht Hp.
  assert (getattr_contents_for (Zone := Zone) (rec_type record)
          = Ok _contents_for_multiple) as Hout.
  { repeat (apply elem_of_cons in Ht as [->|Ht]); try reflexivity.
    by apply elem_of_nil in Ht. }
  assert (∀ g : string → rvalue, (∀ s, g s = VStr s) →
            rbind (first_record (map (entry_of record) (s0 :: ss))) (λ r0,
            rbind (rmap (λ r, rbind (rrdatas_0 r) (λ s, Ok (g s)))
                     (map (entry_of record) (s0 :: ss)))
              (λ vs, Ok {| d_ttl := rr_ttl r0; d_type := rec_type record;
                           d_payload := Values vs |}))
            = Ok {| d_ttl := rec_ttl record; d_type := rec_type record;
                    d_payload := rec_payload record |}) as Hin.
  { intros g Hg. cbn [map first_record rbind].
    rewrite (rmap_total _ (λ r, VStr (head_rrdata r))).
    - cbn [rbind]. rewrite Hp. do 3 f_equal.
      cbn [map]. f_equal. rewrite map_map. by apply map_ext.
    - change (entry_of record s0 :: map (entry_of record) ss)
        with (map (entry_of record) (s0 :: ss)).
      apply Forall_forall. intros r (s & -> & _)%list_elem_of_fmap.
      cbn. by rewrite Hg. }
  exists _contents_for_multiple.
  exists (if decide (rec_type record = "NS") then _data_for_formatted
          else _data_for_multiple).
  split; [exact Hout|]. split; [|split].
  - repeat (apply elem_of_cons in Ht as [->|Ht]); try reflexivity.
    by apply elem_of_nil in Ht.
  - destruct (contents_for_multiple_values record _ Hp) as [_ ->].
    rewrite !map_map. clear. generalize (s0 :: ss). intros l.
    induction l as [|s l IH]; cbn [map]; constructor; [|exact IH].
    destruct (content_update_lookup record {[ "rrdatas" := PList [VStr s] ]})
      as (Hn & Hty & Httl & Hk).
    repeat split;
      first [ done
            | by rewrite Hk, lookup_singleton_eq
            | by rewrite Hk, lookup_singleton_ne ].
  - case_decide.
    + by apply (Hin (λ s, VStr (PyStr.format s))).
    + by apply (Hin VStr).
Qed.

Lemma multi_value_round_trip_witness :
  ∃ contents_for data_for,
    getattr_contents_for (rec_type Sample.x_A) = Ok contents_for
    ∧ getattr_data_for (rec_type Sample.x_A) = Ok data_for
    ∧ Forall2 reads_as
        (map (content_update Sample.x_A) (yielded (contents_for Sample.x_A)))
        (map (entry_of Sample.x_A) ["1.2.3.4"])
    ∧ data_for (rec_type Sample.x_A) (map (entry_of Sample.x_A) ["1.2.3.4"])
      = Ok {| d_ttl := rec_ttl Sample.x_A; d_type := rec_type Sample.x_A;
              d_payload := rec_payload Sample.x_A |}.
Proof.
  apply (multi_value_round_trip Sample.x_A "1.2.3.4" []).
  - left.
  - reflexivity.
Defined.

(** X23. The key a written value goes under depends on the type: every
    write request for an A, AAAA, NS or SPF record carries the value
    under [rrdatas] and has no [content] key; every write request for a
    TXT, CNAME or MX record carries it under [content] and has no
    [rrdatas] key, so that it is not a wire entry the inbound side
    could read. *)
Theorem fragment_keys {Zone : Type} (record : NeutralRecord Zone)
    (contents_for : NeutralRecord Zone → gen fragment) (c : fragment) :
  getattr_contents_for (rec_type record) = Ok contents_for →
  c ∈ yielded (contents_for record) →
  (rec_type record ∈ ["A"; "AAAA"; "NS"; "SPF"] →
   is_Some (content_update record c !! "rrdatas")
   ∧ content_update record c !! "content" = None)
  ∧ (rec_type record ∈ ["TXT"; "CNAME"; "MX"] →
     content_update record c !! "rrdatas" = None
     ∧ is_Some (content_update record c !! "content")
     ∧ ∀ r, ¬ reads_as (content_update record c) r).
Proof.
  intros Hattr Hc.
  destruct (content_update_lookup record c) as (_ & _ & _ & Hk).
  rewrite !Hk by done.
  assert (∀ f : rvalue → result fragment,
            c ∈ yielded (gen_values record f) → ∃ v, f v = Ok c) as Hgen.
  { intros f. unfold gen_values. destruct (get_values record); cbn.
    - intros (v & _ & Hv)%yielded_gen_for. by exists v.
    - by intros ?%elem_of_nil. }
  assert (c !! "rrdatas" = None → ∀ r, ¬ reads_as (content_update record c) r)
    as Hno.
  { intros Hnone r (_ & _ & _ & Hr & _). rewrite Hk in Hr by done. congruence. }
  unfold getattr_contents_for in Hattr.
  repeat case_decide; try discriminate Hattr; injection Hattr as <-;
    match goal with Heq : rec_type record = _ |- _ => rewrite Heq end;
    (split; intros Ht; [try not_in_list Ht|try not_in_list Ht]).
  1-4: destruct (Hgen _ Hc) as [v [= <-]];
       by rewrite lookup_singleton_eq, lookup_singleton_ne.
  - destruct (Hgen _ Hc) as [[s|p e] Hv]; [|done]. injection Hv as <-.
    assert (({[ "content" := PStr (txt_unescape s) ]} : fragment) !! "rrdatas"
            = None) as Hnone by by rewrite lookup_singleton_ne.
    split; [done|]. split; [by rewrite lookup_singleton_eq|]. by apply Hno.
  - unfold _contents_for_CNAME in Hc. destruct (get_value record); cbn in Hc.
    + apply list_elem_of_singleton in Hc as ->.
      assert (({[ "content" := PStr a ]} : fragment) !! "rrdatas" = None)
        as Hnone by by rewrite lookup_singleton_ne.
      split; [done|]. split; [by rewrite lookup_singleton_eq|]. by apply Hno.
    + by apply elem_of_nil in Hc.
  - destruct (Hgen _ Hc) as [[s|p e] Hv]; [done|]. injection Hv as <-.
    assert ((<[ "priority" := PInt p ]> {[ "content" := PStr e ]} : fragment)
            !! "rrdatas" = None) as Hnone.
    { rewrite lookup_insert_ne by done. by rewrite lookup_singleton_ne. }
    split; [done|]. split; [|by apply Hno].
    rewrite lookup_insert_ne by done. by rewrite lookup_singleton_eq.
Qed.

Lemma fragment_keys_witness :
  let c : fragment := {[ "content" := PStr "v=spf1; -all" ]} in
  (rec_type Sample.t_TXT ∈ ["A"; "AAAA"; "NS"; "SPF"] →
   is_Some (content_update Sample.t_TXT c !! "rrdatas")
   ∧ content_update Sample.t_TXT c !! "content" = None)
  ∧ (rec_type Sample.t_TXT ∈ ["TXT"; "CNAME"; "MX"] →
     content_update Sample.t_TXT c !! "rrdatas" = None
     ∧ is_Some (content_update Sample.t_TXT c !! "content")
     ∧ ∀ r, ¬ reads_as (content_update Sample.t_TXT c) r).
Proof.
  apply (fragment_keys Sample.t_TXT _contents_for_TXT).
  - reflexivity.
  - apply list_elem_of_here.
Defined.
